(** * CompoundPublisher: demand-gated transcoding of one sensor frame

    A shallow embedding of [src/compound_publisher.cpp] of the
    sick_safevisionary ROS1 driver.  One decoded camera frame is fanned
    out to ten ROS topics; each topic is served only when somebody is
    subscribed to it.  The development models

    - the fixed-width unsigned arithmetic of the message fields,
    - the byte level of [memcpy] into vectors and rasters,
    - the transport (subscriber counts and published messages) as a
      state threaded through every call, together with a trace of what
      each routine did,

    and proves the layout, gating and copy properties of the publisher. *)

From Stdlib Require Import String Floats ZArith List Lia Bool.
Import ListNotations.
Local Open Scope Z_scope.

(** ** Machine integers and object representations *)

(** An unsigned integer of [bits] bits is a [Z]; storing a value into
    such a field reduces it modulo [2 ^ bits]. *)
Definition wrap (bits v : Z) : Z := v mod 2 ^ bits.

Definition uint8_t : Z -> Z := wrap 8.
Definition uint32_t : Z -> Z := wrap 32.

(** Largest value of the C++ [int] returned by the frame's accessors. *)
Definition INT_MAX : Z := 2147483647.

(** A byte of memory. *)
Abbreviation byte := Z (only parsing).

(** The [n] low-order bytes of [v], least significant first. *)
Fixpoint le_bytes (n : nat) (v : Z) : list byte :=
  match n with
  | O => []
  | S n' => v mod 256 :: le_bytes n' (v / 256)
  end.

(** The object representation of an [n]-byte scalar on the host: the
    little-endian byte string, reversed on a big-endian host. *)
Definition object_bytes (big_endian : bool) (n : nat) (v : Z) : list byte :=
  if big_endian then rev (le_bytes n v) else le_bytes n v.

(** A C++ [float] is never computed with in this file, only stored and
    copied: it is carried as its 32-bit IEEE-754 pattern.  A [double] is
    a primitive binary64 float. *)
Abbreviation float32 := Z (only parsing).
Abbreviation double := float (only parsing).

Definition sizeof_float : nat := 4.
Definition sizeof_uint16_t : nat := 2.
Definition sizeof_uint8_t : nat := 1.

(** ** Outcomes and memory copies *)

(** What stops a call before its end: a write outside an allocation
    (undefined behaviour in C++) or an exception nobody catches. *)
Inductive Failure : Type :=
| OutOfBounds
| Exception.

Inductive Outcome (A : Type) : Type :=
| Ret (a : A)
| Abort (why : Failure).

Arguments Ret {A} a.
Arguments Abort {A} why.

(** [memcpy(&dst[off], src, |src|)]: the bytes [off, off + |src|) of
    [dst] are replaced; the call is defined only when that range lies
    inside [dst]. *)
Definition memcpy (dst : list byte) (off : nat) (src : list byte)
  : Outcome (list byte) :=
  if (off + length src <=? length dst)%nat
  then Ret (firstn off dst ++ src ++ skipn (off + length src) dst)
  else Abort OutOfBounds.

(** Assignment [a[i] = v] into an array or vector at a constant index
    inside its bounds. *)
Fixpoint array_set {A : Type} (i : nat) (v : A) (a : list A) : list A :=
  match a, i with
  | [], _ => []
  | _ :: t, O => v :: t
  | h :: t, S i' => h :: array_set i' v t
  end.

(** ** The decoded sensor frame ([visionary::SafeVisionaryData])

    The frame comes from the sick_safevisionary_base library; this file
    only reads it through its accessors.  Status flags, pin states and
    counters are integers; the publisher copies every one of them into
    a message field holding the same values. *)

Module PointXYZ.
(** Three consecutive [float]s, 12 bytes, no padding. *)
Record t := { x : float32; y : float32; z : float32 }.
End PointXYZ.

Definition sizeof_PointXYZ : nat := 3 * sizeof_float.

Module CameraParameters.
Record t := {
  fx : double; fy : double; cx : double; cy : double;
  k1 : double; k2 : double; p1 : double; p2 : double; k3 : double }.
End CameraParameters.

Module IMUVector.
Record t := { X : double; Y : double; Z : double }.
End IMUVector.

Module IMUQuaternion.
Record t := { X : double; Y : double; Z : double; W : double }.
End IMUQuaternion.

Module IMUData.
Record t := {
  angularVelocity : IMUVector.t;
  acceleration : IMUVector.t;
  orientation : IMUQuaternion.t }.
End IMUData.

Module GeneralStatus.
Record t := {
  applicationError : Z; contaminationError : Z; contaminationWarning : Z;
  deadZoneDetection : Z; deviceError : Z; temperatureWarning : Z;
  runModeActive : Z; waitForCluster : Z; waitForInput : Z }.
End GeneralStatus.

Module ActiveMonitoringCase.
Record t := {
  currentCaseNumberMonitoringCase1 : Z; currentCaseNumberMonitoringCase2 : Z;
  currentCaseNumberMonitoringCase3 : Z; currentCaseNumberMonitoringCase4 : Z }.
End ActiveMonitoringCase.

Module DeviceStatusData.
Record t := {
  generalStatus : GeneralStatus.t;
  COPNonSaftyRelated : Z; COPSaftyRelated : Z; COPResetRequired : Z;
  activeMonitoringCase : ActiveMonitoringCase.t;
  contaminationLevel : Z }.
End DeviceStatusData.

Module UniversalIOConfigured.
Record t := {
  configuredUniIOPin5 : Z; configuredUniIOPin6 : Z;
  configuredUniIOPin7 : Z; configuredUniIOPin8 : Z }.
End UniversalIOConfigured.

Module UniversalIODirection.
Record t := {
  directionValueUniIOPin5 : Z; directionValueUniIOPin6 : Z;
  directionValueUniIOPin7 : Z; directionValueUniIOPin8 : Z }.
End UniversalIODirection.

Module UniversalIOInputValue.
Record t := {
  logicalValueUniIOPin5 : Z; logicalValueUniIOPin6 : Z;
  logicalValueUniIOPin7 : Z; logicalValueUniIOPin8 : Z }.
End UniversalIOInputValue.

Module UniversalIOOutputValue.
Record t := {
  localOutput1Pin5 : Z; localOutput2Pin6 : Z;
  localOutput3Pin7 : Z; localOutput4Pin8 : Z }.
End UniversalIOOutputValue.

Module OssdsState.
Record t := {
  stateOSSD1A : Z; stateOSSD1B : Z; stateOSSD2A : Z; stateOSSD2B : Z }.
End OssdsState.

Module LocalIOData.
Record t := {
  universalIOConfigured : UniversalIOConfigured.t;
  universalIODirection : UniversalIODirection.t;
  universalIOInputValue : UniversalIOInputValue.t;
  universalIOOutputValue : UniversalIOOutputValue.t;
  ossdsState : OssdsState.t;
  ossdsDynCount : Z; ossdsCRC : Z; ossdsIOStatus : Z;
  dynamicSpeedA : Z; dynamicSpeedB : Z; DynamicValidFlags : Z }.
End LocalIOData.

Module RoiResult.
Record t := {
  distanceSafe : Z; distanceValid : Z; resultSafe : Z; resultValid : Z;
  taskResult : Z }.
End RoiResult.

Module SafetyRelatedData.
(** The members reached through [safetyRelatedData.tMembers]. *)
Record t := {
  invalidDueToInvalidPixels : Z; invalidDueToVariance : Z;
  invalidDueToOverexposure : Z; invalidDueToUnderexposure : Z;
  invalidDueToTemporalVariance : Z;
  invalidDueToOutsideOfMeasurementRange : Z;
  invalidDueToRetroReflectorInterference : Z;
  contaminationError : Z; qualityClass : Z; slotActive : Z }.
End SafetyRelatedData.

Module RoiData.
Record t := {
  id : Z; distanceValue : Z;
  result : RoiResult.t;
  safetyRelatedData : SafetyRelatedData.t }.
End RoiData.

Module FieldInformationData.
Record t := {
  fieldID : Z; fieldSetID : Z; fieldActive : Z; fieldResult : Z;
  evalMethod : Z }.
End FieldInformationData.

Module SafeVisionaryData.
(** The distance and intensity maps hold 16-bit samples, the state map
    8-bit ones.  [getRoiData] and [getFieldInformationData] stand for
    the vectors [getRoiData().roiData] and
    [getFieldInformationData().fieldInformation].  The two point
    routines are methods of the frame computed by the base library and
    leave the frame as it is: [generatePointCloud] is the vector the
    method fills for this frame, [transformPointCloud] what it turns a
    vector into. *)
Record t := {
  getHeight : Z;
  getWidth : Z;
  getCameraParameters : CameraParameters.t;
  getDistanceMap : list Z;
  getIntensityMap : list Z;
  getStateMap : list Z;
  getIMUData : IMUData.t;
  getDeviceStatus : Z;
  getDeviceStatusData : DeviceStatusData.t;
  getLocalIOData : LocalIOData.t;
  getRoiData : list RoiData.t;
  getFieldInformationData : list FieldInformationData.t;
  generatePointCloud : list PointXYZ.t;
  transformPointCloud : list PointXYZ.t -> list PointXYZ.t }.
End SafeVisionaryData.

(** ** The published messages *)

Module Header.
(** [std_msgs::Header]: sequence number, time stamp, frame name. *)
Record t := { seq : Z; stamp : Z; frame_id : string }.
End Header.

Module RegionOfInterest.
Record t := {
  x_offset : Z; y_offset : Z; height : Z; width : Z; do_rectify : bool }.
Definition init : t :=
    {| x_offset := 0; y_offset := 0; height := 0; width := 0;
       do_rectify := false |}.
End RegionOfInterest.

Module CameraInfo.
Record t := {
  header : Header.t;
  height : Z;
  width : Z;
  distortion_model : string;
  D : list double;
  K : list double;
  R : list double;
  P : list double;
  binning_x : Z;
  binning_y : Z;
  roi : RegionOfInterest.t }.
End CameraInfo.

Module PointField.
Definition UINT16 : Z := 4.
Definition FLOAT32 : Z := 7.
Record t := { name : string; offset : Z; datatype : Z; count : Z }.
Definition init : t :=
    {| name := EmptyString; offset := 0; datatype := 0; count := 0 |}.
End PointField.

Module PointCloud2.
Record t := {
  header : Header.t;
  height : Z;
  width : Z;
  fields : list PointField.t;
  is_bigendian : bool;
  point_step : Z;
  row_step : Z;
  data : list byte;
  is_dense : bool }.
End PointCloud2.

Module Image.
Record t := {
  header : Header.t;
  height : Z;
  width : Z;
  encoding : string;
  is_bigendian : bool;
  step : Z;
  data : list byte }.
End Image.

Module Vector3.
Record t := { x : double; y : double; z : double }.
End Vector3.

Module Quaternion.
Record t := { x : double; y : double; z : double; w : double }.
End Quaternion.

Module Imu.
Record t := {
  header : Header.t;
  orientation : Quaternion.t;
  orientation_covariance : list double;
  angular_velocity : Vector3.t;
  angular_velocity_covariance : list double;
  linear_acceleration : Vector3.t;
  linear_acceleration_covariance : list double }.
End Imu.

Module GeneralStatusMsg.
Record t := {
  application_error : Z; contamination_error : Z; contamination_warning : Z;
  dead_zone_detection : Z; device_error : Z; temperature_warning : Z;
  run_mode_active : Z; wait_for_cluster : Z; wait_for_input : Z }.
End GeneralStatusMsg.

Module MonitoringCaseMsg.
Record t := {
  monitoring_case_1 : Z; monitoring_case_2 : Z;
  monitoring_case_3 : Z; monitoring_case_4 : Z }.
End MonitoringCaseMsg.

Module DeviceStatus.
Record t := {
  header : Header.t;
  status : Z;
  general_status : GeneralStatusMsg.t;
  COP_non_safety_related : Z;
  COP_safety_related : Z;
  COP_reset_required : Z;
  active_monitoring_case : MonitoringCaseMsg.t;
  contamination_level : Z }.
End DeviceStatus.

Module CameraIOPins.
Record t := { pin_5 : Z; pin_6 : Z; pin_7 : Z; pin_8 : Z }.
End CameraIOPins.

Module OssdsStateMsg.
Record t := { OSSD1A : Z; OSSD1B : Z; OSSD2A : Z; OSSD2B : Z }.
End OssdsStateMsg.

Module CameraIO.
Record t := {
  header : Header.t;
  configured : CameraIOPins.t;
  direction : CameraIOPins.t;
  input_values : CameraIOPins.t;
  output_values : CameraIOPins.t;
  ossds_state : OssdsStateMsg.t;
  ossds_dyn_count : Z;
  ossds_crc : Z;
  ossds_io_status : Z;
  dynamic_speed_a : Z;
  dynamic_speed_b : Z;
  dynamic_valid_flags : Z }.
End CameraIO.

Module ROIResultMsg.
Record t := {
  distance_safe : Z; distance_valid : Z; result_safe : Z; result_valid : Z;
  task_result : Z }.
End ROIResultMsg.

Module ROISafetyMsg.
Record t := {
  invalid_due_to_invalid_pixels : Z; invalid_due_to_variance : Z;
  invalid_due_to_overexposure : Z; invalid_due_to_underexposure : Z;
  invalid_due_to_temporal_variance : Z;
  invalid_due_to_outside_of_measurement_range : Z;
  invalid_due_to_retro_reflector_interference : Z;
  contamination_error : Z; quality_class : Z; slot_active : Z }.
End ROISafetyMsg.

Module ROI.
Record t := {
  id : Z; distance_value : Z;
  result_data : ROIResultMsg.t;
  safety_data : ROISafetyMsg.t }.
End ROI.

Module ROIArray.
Record t := { header : Header.t; rois : list ROI.t }.
End ROIArray.

Module FieldInformation.
Record t := {
  field_id : Z; field_set_id : Z; field_active : Z; field_result : Z;
  eval_method : Z }.
End FieldInformation.

Module FieldInformationArray.
Record t := { header : Header.t; fields : list FieldInformation.t }.
End FieldInformationArray.

(** Any message handed to the transport. *)
Inductive Message : Type :=
| MsgCameraInfo (m : CameraInfo.t)
| MsgPointCloud2 (m : PointCloud2.t)
| MsgImage (m : Image.t)
| MsgImu (m : Imu.t)
| MsgDeviceStatus (m : DeviceStatus.t)
| MsgCameraIO (m : CameraIO.t)
| MsgROIArray (m : ROIArray.t)
| MsgFieldInformationArray (m : FieldInformationArray.t).

Definition header_of (m : Message) : Header.t :=
  match m with
  | MsgCameraInfo m => CameraInfo.header m
  | MsgPointCloud2 m => PointCloud2.header m
  | MsgImage m => Image.header m
  | MsgImu m => Imu.header m
  | MsgDeviceStatus m => DeviceStatus.header m
  | MsgCameraIO m => CameraIO.header m
  | MsgROIArray m => ROIArray.header m
  | MsgFieldInformationArray m => FieldInformationArray.header m
  end.

(** ** The transport and the publisher's effects *)

(** The ten publishers held by [CompoundPublisher], one per topic. *)
Inductive Channel : Type :=
| camera_info_pub_
| pointcloud_pub_
| depth_pub_
| intensity_pub_
| state_pub_
| imu_pub_
| device_status_pub_
| io_pub_
| roi_pub_
| field_pub_.

Definition Channel_eqb (a b : Channel) : bool :=
  match a, b with
  | camera_info_pub_, camera_info_pub_
  | pointcloud_pub_, pointcloud_pub_
  | depth_pub_, depth_pub_
  | intensity_pub_, intensity_pub_
  | state_pub_, state_pub_
  | imu_pub_, imu_pub_
  | device_status_pub_, device_status_pub_
  | io_pub_, io_pub_
  | roi_pub_, roi_pub_
  | field_pub_, field_pub_ => true
  | _, _ => false
  end.

(** What a call leaves behind, in order: the entry into the transcode
    routine of a channel, the sizing of the point buffer
    ([data.resize(n)]), the two calls into the point routines of the
    frame, a log line, and a message handed to a publisher. *)
Inductive Event : Type :=
| Entered (c : Channel)
| DataResized (n : Z)
| PointsGenerated
| PointsTransformed
| RosInfo (text : string)
| Published (c : Channel) (m : Message).

(** The world a call runs in: the subscriber count the transport reports
    for each publisher, the bytes found in freshly allocated raster
    memory, and everything that happened so far. *)
Record World : Type := {
  getNumSubscribers : Channel -> Z;
  uninitialized : nat -> byte;
  trace : list Event }.

Definition record (evs : list Event) (w : World) : World :=
  {| getNumSubscribers := getNumSubscribers w;
     uninitialized := uninitialized w;
     trace := trace w ++ evs |}.

(** A computation reads and extends the world and either returns or is
    cut short. *)
Definition M (A : Type) : Type := World -> Outcome A * World.

Definition ret {A : Type} (a : A) : M A := fun w => (Ret a, w).

Definition bind {A B : Type} (m : M A) (k : A -> M B) : M B :=
  fun w =>
    match m w with
    | (Ret a, w') => k a w'
    | (Abort why, w') => (Abort why, w')
    end.

Definition throw {A : Type} (why : Failure) : M A := fun w => (Abort why, w).

Definition lift {A : Type} (o : Outcome A) : M A := fun w => (o, w).

Definition emit (e : Event) : M unit := fun w => (Ret tt, record [e] w).

Definition numSubscribers (c : Channel) : M Z :=
  fun w => (Ret (getNumSubscribers w c), w).

(** [n] bytes of memory that nobody has written yet. *)
Definition fresh (n : nat) : M (list byte) :=
  fun w => (Ret (map (uninitialized w) (seq 0 n)), w).

Declare Scope pub_scope.
Delimit Scope pub_scope with pub.
Notation "x <- m ;; k" := (bind m (fun x => k))
  (at level 61, m at next level, right associativity) : pub_scope.
Notation "m ;; k" := (bind m (fun _ => k))
  (at level 61, right associativity) : pub_scope.
Local Open Scope pub_scope.

(** [pub.publish(msg)] *)
Definition publish_on (c : Channel) (m : Message) : M unit :=
  emit (Published c m).

(** The events a run added to the world it started from. *)
Definition emitted (before after : World) : list Event :=
  skipn (length (trace before)) (trace after).

(** ** The publisher *)

Module Mat.
(** [cv::Mat]: a raster of [rows * cols] elements of [elemSize] bytes. *)
Record t := { rows : Z; cols : Z; elemSize : nat; data : list byte }.
End Mat.

Definition TYPE_16UC1 : string := "16UC1".
Definition TYPE_8UC1 : string := "8UC1".

Section Publisher.

(** Byte order of the machine the driver runs on. *)
Variable big_endian_host : bool.

Definition uint16_bytes (v : Z) : list byte :=
  object_bytes big_endian_host sizeof_uint16_t v.

Definition uint8_bytes (v : Z) : list byte :=
  object_bytes big_endian_host sizeof_uint8_t v.

Definition float_bytes (v : float32) : list byte :=
  object_bytes big_endian_host sizeof_float v.

(** The 12 bytes of a [visionary::PointXYZ] in memory. *)
Definition PointXYZ_bytes (p : PointXYZ.t) : list byte :=
  float_bytes (PointXYZ.x p) ++ float_bytes (PointXYZ.y p)
  ++ float_bytes (PointXYZ.z p).

(** The message [camera_info] that [publishCameraInfo] fills in. *)
Definition camera_info (header : Header.t)
    (frame_data : SafeVisionaryData.t) : CameraInfo.t :=
  let params := SafeVisionaryData.getCameraParameters frame_data in
  let height := uint32_t (SafeVisionaryData.getHeight frame_data) in
  let width := uint32_t (SafeVisionaryData.getWidth frame_data) in
  let D := repeat 0%float 5 in
  let D := array_set 0 (CameraParameters.k1 params) D in
  let D := array_set 1 (CameraParameters.k2 params) D in
  let D := array_set 2 (CameraParameters.p1 params) D in
  let D := array_set 3 (CameraParameters.p2 params) D in
  let D := array_set 4 (CameraParameters.k3 params) D in
  let K := repeat 0%float 9 in
  let K := array_set 0 (CameraParameters.fx params) K in
  let K := array_set 2 (CameraParameters.cx params) K in
  let K := array_set 4 (CameraParameters.fy params) K in
  let K := array_set 5 (CameraParameters.cy params) K in
  let K := array_set 8 1%float K in
  {| CameraInfo.header := header;
     CameraInfo.height := height;
     CameraInfo.width := width;
     CameraInfo.distortion_model := EmptyString;
     CameraInfo.D := D;
     CameraInfo.K := K;
     CameraInfo.R := repeat 0%float 9;
     CameraInfo.P := repeat 0%float 12;
     CameraInfo.binning_x := 0;
     CameraInfo.binning_y := 0;
     CameraInfo.roi := RegionOfInterest.init |}.

(** [CompoundPublisher::publishCameraInfo] *)
Definition publishCameraInfo (header : Header.t)
    (frame_data : SafeVisionaryData.t) : M unit :=
  emit (Entered camera_info_pub_) ;;
  publish_on camera_info_pub_ (MsgCameraInfo (camera_info header frame_data)).

(** Field-wise updates of a [PointField] held in [fields]. *)
Fixpoint update_field (i : nat) (f : PointField.t -> PointField.t)
    (fields : list PointField.t) : list PointField.t :=
  match fields, i with
  | [], _ => []
  | h :: t, O => f h :: t
  | h :: t, S i' => h :: update_field i' f t
  end.

Definition set_name (s : string) (p : PointField.t) : PointField.t :=
  {| PointField.name := s; PointField.offset := PointField.offset p;
     PointField.datatype := PointField.datatype p;
     PointField.count := PointField.count p |}.

Definition describe (offset datatype : Z) (p : PointField.t) : PointField.t :=
  {| PointField.name := PointField.name p; PointField.offset := offset;
     PointField.datatype := datatype; PointField.count := 1 |}.

(** The loop over the three coordinate fields: each gets the running
    offset, which then grows by [sizeof(float)]. *)
Definition describe_coordinates (fields : list PointField.t) (offset : Z)
  : list PointField.t * Z :=
  fold_left
    (fun st i =>
       (update_field i (describe (snd st) PointField.FLOAT32) (fst st),
        snd st + Z.of_nat sizeof_float))
    [0%nat; 1%nat; 2%nat] (fields, offset).

Definition field_offset (i : nat) (fields : list PointField.t) : Z :=
  PointField.offset (nth i fields PointField.init).

(** The packing loop of [publishPointCloud]: point [i] goes to byte
    [i * point_step + fields[0].offset], its intensity to byte
    [i * point_step + fields[3].offset].  Both iterators advance with
    [i]; the loop ends with the points. *)
Fixpoint pack_points (point_step off_xyz off_intensity : Z) (i : nat)
    (point_it : list PointXYZ.t) (intensity_it : list Z)
    (data : list byte) : Outcome (list byte) :=
  match point_it with
  | [] => Ret data
  | p :: point_it' =>
      match intensity_it with
      | [] => Abort OutOfBounds
      | v :: intensity_it' =>
          match memcpy data (Z.to_nat (Z.of_nat i * point_step + off_xyz))
                  (PointXYZ_bytes p) with
          | Abort why => Abort why
          | Ret data1 =>
              match memcpy data1
                      (Z.to_nat (Z.of_nat i * point_step + off_intensity))
                      (uint16_bytes v) with
              | Abort why => Abort why
              | Ret data2 =>
                  pack_points point_step off_xyz off_intensity (S i)
                    point_it' intensity_it' data2
              end
          end
      end
  end.

(** [CompoundPublisher::publishPointCloud] *)
Definition publishPointCloud (header : Header.t)
    (frame_data : SafeVisionaryData.t) : M unit :=
  emit (Entered pointcloud_pub_) ;;
  let height := uint32_t (SafeVisionaryData.getHeight frame_data) in
  let width := uint32_t (SafeVisionaryData.getWidth frame_data) in
  let fields := repeat PointField.init 4 in
  let fields := update_field 0 (set_name "x") fields in
  let fields := update_field 1 (set_name "y") fields in
  let fields := update_field 2 (set_name "z") fields in
  let fields := update_field 3 (set_name "intensity") fields in
  let '(fields, offset) := describe_coordinates fields 0 in
  let fields := update_field 3 (describe offset PointField.UINT16) fields in
  let offset := offset + Z.of_nat sizeof_uint16_t in
  let point_step := uint32_t offset in
  let row_step := uint32_t (point_step * width) in
  let size := uint32_t (height * row_step) in
  emit (DataResized size) ;;
  let data := repeat 0 (Z.to_nat size) in
  emit PointsGenerated ;;
  let point_vec := SafeVisionaryData.generatePointCloud frame_data in
  emit PointsTransformed ;;
  let point_vec := SafeVisionaryData.transformPointCloud frame_data point_vec in
  if negb (length (SafeVisionaryData.getIntensityMap frame_data)
           =? length point_vec)%nat
  then emit (RosInfo "Missmatch point and intensity data.")
  else
    data <- lift (pack_points point_step (field_offset 0 fields)
                    (field_offset 3 fields) 0 point_vec
                    (SafeVisionaryData.getIntensityMap frame_data) data) ;;
    publish_on pointcloud_pub_
      (MsgPointCloud2
         {| PointCloud2.header := header;
            PointCloud2.height := height;
            PointCloud2.width := width;
            PointCloud2.fields := fields;
            PointCloud2.is_bigendian := false;
            PointCloud2.point_step := point_step;
            PointCloud2.row_step := row_step;
            PointCloud2.data := data;
            PointCloud2.is_dense := false |}).

(** The message [imu_msg] that [publishIMUData] fills in. *)
Definition imu_msg (header : Header.t)
    (frame_data : SafeVisionaryData.t) : Imu.t :=
  let imu := SafeVisionaryData.getIMUData frame_data in
  {| Imu.header := header;
     Imu.orientation :=
       {| Quaternion.x := IMUQuaternion.X (IMUData.orientation imu);
          Quaternion.y := IMUQuaternion.Y (IMUData.orientation imu);
          Quaternion.z := IMUQuaternion.Z (IMUData.orientation imu);
          Quaternion.w := IMUQuaternion.W (IMUData.orientation imu) |};
     Imu.orientation_covariance := repeat 0%float 9;
     Imu.angular_velocity :=
       {| Vector3.x := IMUVector.X (IMUData.angularVelocity imu);
          Vector3.y := IMUVector.Y (IMUData.angularVelocity imu);
          Vector3.z := IMUVector.Z (IMUData.angularVelocity imu) |};
     Imu.angular_velocity_covariance := repeat 0%float 9;
     Imu.linear_acceleration :=
       {| Vector3.x := IMUVector.X (IMUData.acceleration imu);
          Vector3.y := IMUVector.Y (IMUData.acceleration imu);
          Vector3.z := IMUVector.Z (IMUData.acceleration imu) |};
     Imu.linear_acceleration_covariance := repeat 0%float 9 |}.

(** [CompoundPublisher::publishIMUData] *)
Definition publishIMUData (header : Header.t)
    (frame_data : SafeVisionaryData.t) : M unit :=
  emit (Entered imu_pub_) ;;
  publish_on imu_pub_ (MsgImu (imu_msg header frame_data)).

(** [cv::Mat(rows, cols, type)]: a raster whose memory is allocated but
    not written; a negative dimension raises [cv::Exception]. *)
Definition Mat_create (rows cols : Z) (elemSize : nat) : M Mat.t :=
  if (0 <=? rows) && (0 <=? cols)
  then
    data <- fresh (Z.to_nat (rows * cols) * elemSize) ;;
    ret {| Mat.rows := rows; Mat.cols := cols; Mat.elemSize := elemSize;
           Mat.data := data |}
  else throw Exception.

(** [cv_bridge::CvImage(header, encoding, image).toImageMsg()]: the
    raster's [step * rows] bytes under the given header and encoding. *)
Definition toImageMsg (header : Header.t) (encoding : string) (image : Mat.t)
  : Image.t :=
  let step := uint32_t (Mat.cols image * Z.of_nat (Mat.elemSize image)) in
  {| Image.header := header;
     Image.height := uint32_t (Mat.rows image);
     Image.width := uint32_t (Mat.cols image);
     Image.encoding := encoding;
     Image.is_bigendian := big_endian_host;
     Image.step := step;
     Image.data := firstn (Z.to_nat (step * Mat.rows image)) (Mat.data image) |}.

(** [CompoundPublisher::Vec16ToImage]: all of [vec] is copied to the
    start of the raster, whatever the raster's size. *)
Definition Vec16ToImage (header : Header.t) (frame_data : SafeVisionaryData.t)
    (vec : list Z) : M Image.t :=
  image <- Mat_create (SafeVisionaryData.getHeight frame_data)
             (SafeVisionaryData.getWidth frame_data) sizeof_uint16_t ;;
  data <- lift (memcpy (Mat.data image) 0 (flat_map uint16_bytes vec)) ;;
  ret (toImageMsg header TYPE_16UC1
         {| Mat.rows := Mat.rows image; Mat.cols := Mat.cols image;
            Mat.elemSize := Mat.elemSize image; Mat.data := data |}).

(** [CompoundPublisher::Vec8ToImage] *)
Definition Vec8ToImage (header : Header.t) (frame_data : SafeVisionaryData.t)
    (vec : list Z) : M Image.t :=
  image <- Mat_create (SafeVisionaryData.getHeight frame_data)
             (SafeVisionaryData.getWidth frame_data) sizeof_uint8_t ;;
  data <- lift (memcpy (Mat.data image) 0 (flat_map uint8_bytes vec)) ;;
  ret (toImageMsg header TYPE_8UC1
         {| Mat.rows := Mat.rows image; Mat.cols := Mat.cols image;
            Mat.elemSize := Mat.elemSize image; Mat.data := data |}).

(** [CompoundPublisher::publishDepthImage] *)
Definition publishDepthImage (header : Header.t)
    (frame_data : SafeVisionaryData.t) : M unit :=
  emit (Entered depth_pub_) ;;
  image <- Vec16ToImage header frame_data
             (SafeVisionaryData.getDistanceMap frame_data) ;;
  publish_on depth_pub_ (MsgImage image).

(** [CompoundPublisher::publishIntensityImage] *)
Definition publishIntensityImage (header : Header.t)
    (frame_data : SafeVisionaryData.t) : M unit :=
  emit (Entered intensity_pub_) ;;
  image <- Vec16ToImage header frame_data
             (SafeVisionaryData.getIntensityMap frame_data) ;;
  publish_on intensity_pub_ (MsgImage image).

(** [CompoundPublisher::publishStateMap] *)
Definition publishStateMap (header : Header.t)
    (frame_data : SafeVisionaryData.t) : M unit :=
  emit (Entered state_pub_) ;;
  image <- Vec8ToImage header frame_data
             (SafeVisionaryData.getStateMap frame_data) ;;
  publish_on state_pub_ (MsgImage image).

(** The message [device_status_msg] that [publishDeviceStatus] fills in. *)
Definition device_status_msg (header : Header.t)
    (frame_data : SafeVisionaryData.t) : DeviceStatus.t :=
  let d := SafeVisionaryData.getDeviceStatusData frame_data in
  let g := DeviceStatusData.generalStatus d in
  let a := DeviceStatusData.activeMonitoringCase d in
  {| DeviceStatus.header := header;
     DeviceStatus.status :=
       uint8_t (SafeVisionaryData.getDeviceStatus frame_data);
     DeviceStatus.general_status :=
       {| GeneralStatusMsg.application_error :=
            GeneralStatus.applicationError g;
          GeneralStatusMsg.contamination_error :=
            GeneralStatus.contaminationError g;
          GeneralStatusMsg.contamination_warning :=
            GeneralStatus.contaminationWarning g;
          GeneralStatusMsg.dead_zone_detection :=
            GeneralStatus.deadZoneDetection g;
          GeneralStatusMsg.device_error := GeneralStatus.deviceError g;
          GeneralStatusMsg.temperature_warning :=
            GeneralStatus.temperatureWarning g;
          GeneralStatusMsg.run_mode_active :=
            GeneralStatus.runModeActive g;
          GeneralStatusMsg.wait_for_cluster :=
            GeneralStatus.waitForCluster g;
          GeneralStatusMsg.wait_for_input :=
            GeneralStatus.waitForInput g |};
     DeviceStatus.COP_non_safety_related :=
       DeviceStatusData.COPNonSaftyRelated d;
     DeviceStatus.COP_safety_related :=
       DeviceStatusData.COPSaftyRelated d;
     DeviceStatus.COP_reset_required :=
       DeviceStatusData.COPResetRequired d;
     DeviceStatus.active_monitoring_case :=
       {| MonitoringCaseMsg.monitoring_case_1 :=
            ActiveMonitoringCase.currentCaseNumberMonitoringCase1 a;
          MonitoringCaseMsg.monitoring_case_2 :=
            ActiveMonitoringCase.currentCaseNumberMonitoringCase2 a;
          MonitoringCaseMsg.monitoring_case_3 :=
            ActiveMonitoringCase.currentCaseNumberMonitoringCase3 a;
          MonitoringCaseMsg.monitoring_case_4 :=
            ActiveMonitoringCase.currentCaseNumberMonitoringCase4 a |};
     DeviceStatus.contamination_level :=
       DeviceStatusData.contaminationLevel d |}.

(** [CompoundPublisher::publishDeviceStatus] *)
Definition publishDeviceStatus (header : Header.t)
    (frame_data : SafeVisionaryData.t) : M unit :=
  emit (Entered device_status_pub_) ;;
  publish_on device_status_pub_ (MsgDeviceStatus (device_status_msg header frame_data)).

(** The message [camera_io_msg] that [publishIOs] fills in. *)
Definition camera_io_msg (header : Header.t)
    (frame_data : SafeVisionaryData.t) : CameraIO.t :=
  let io := SafeVisionaryData.getLocalIOData frame_data in
  let c := LocalIOData.universalIOConfigured io in
  let d := LocalIOData.universalIODirection io in
  let i := LocalIOData.universalIOInputValue io in
  let o := LocalIOData.universalIOOutputValue io in
  let s := LocalIOData.ossdsState io in
  {| CameraIO.header := header;
     CameraIO.configured :=
       {| CameraIOPins.pin_5 := UniversalIOConfigured.configuredUniIOPin5 c;
          CameraIOPins.pin_6 := UniversalIOConfigured.configuredUniIOPin6 c;
          CameraIOPins.pin_7 := UniversalIOConfigured.configuredUniIOPin7 c;
          CameraIOPins.pin_8 := UniversalIOConfigured.configuredUniIOPin8 c |};
     CameraIO.direction :=
       {| CameraIOPins.pin_5 := UniversalIODirection.directionValueUniIOPin5 d;
          CameraIOPins.pin_6 := UniversalIODirection.directionValueUniIOPin6 d;
          CameraIOPins.pin_7 := UniversalIODirection.directionValueUniIOPin7 d;
          CameraIOPins.pin_8 := UniversalIODirection.directionValueUniIOPin8 d |};
     CameraIO.input_values :=
       {| CameraIOPins.pin_5 := UniversalIOInputValue.logicalValueUniIOPin5 i;
          CameraIOPins.pin_6 := UniversalIOInputValue.logicalValueUniIOPin6 i;
          CameraIOPins.pin_7 := UniversalIOInputValue.logicalValueUniIOPin7 i;
          CameraIOPins.pin_8 := UniversalIOInputValue.logicalValueUniIOPin8 i |};
     CameraIO.output_values :=
       {| CameraIOPins.pin_5 := UniversalIOOutputValue.localOutput1Pin5 o;
          CameraIOPins.pin_6 := UniversalIOOutputValue.localOutput2Pin6 o;
          CameraIOPins.pin_7 := UniversalIOOutputValue.localOutput3Pin7 o;
          CameraIOPins.pin_8 := UniversalIOOutputValue.localOutput4Pin8 o |};
     CameraIO.ossds_state :=
       {| OssdsStateMsg.OSSD1A := OssdsState.stateOSSD1A s;
          OssdsStateMsg.OSSD1B := OssdsState.stateOSSD1B s;
          OssdsStateMsg.OSSD2A := OssdsState.stateOSSD2A s;
          OssdsStateMsg.OSSD2B := OssdsState.stateOSSD2B s |};
     CameraIO.ossds_dyn_count := LocalIOData.ossdsDynCount io;
     CameraIO.ossds_crc := LocalIOData.ossdsCRC io;
     CameraIO.ossds_io_status := LocalIOData.ossdsIOStatus io;
     CameraIO.dynamic_speed_a := LocalIOData.dynamicSpeedA io;
     CameraIO.dynamic_speed_b := LocalIOData.dynamicSpeedB io;
     CameraIO.dynamic_valid_flags := LocalIOData.DynamicValidFlags io |}.

(** [CompoundPublisher::publishIOs] *)
Definition publishIOs (header : Header.t)
    (frame_data : SafeVisionaryData.t) : M unit :=
  emit (Entered io_pub_) ;;
  publish_on io_pub_ (MsgCameraIO (camera_io_msg header frame_data)).

(** The body of the loop of [publishROI]: the message built from one
    region of interest. *)
Definition roi_msg (roi : RoiData.t) : ROI.t :=
  let r := RoiData.result roi in
  let s := RoiData.safetyRelatedData roi in
  {| ROI.id := RoiData.id roi;
     ROI.distance_value := RoiData.distanceValue roi;
     ROI.result_data :=
       {| ROIResultMsg.distance_safe := RoiResult.distanceSafe r;
          ROIResultMsg.distance_valid := RoiResult.distanceValid r;
          ROIResultMsg.result_safe := RoiResult.resultSafe r;
          ROIResultMsg.result_valid := RoiResult.resultValid r;
          ROIResultMsg.task_result := RoiResult.taskResult r |};
     ROI.safety_data :=
       {| ROISafetyMsg.invalid_due_to_invalid_pixels :=
            SafetyRelatedData.invalidDueToInvalidPixels s;
          ROISafetyMsg.invalid_due_to_variance :=
            SafetyRelatedData.invalidDueToVariance s;
          ROISafetyMsg.invalid_due_to_overexposure :=
            SafetyRelatedData.invalidDueToOverexposure s;
          ROISafetyMsg.invalid_due_to_underexposure :=
            SafetyRelatedData.invalidDueToUnderexposure s;
          ROISafetyMsg.invalid_due_to_temporal_variance :=
            SafetyRelatedData.invalidDueToTemporalVariance s;
          ROISafetyMsg.invalid_due_to_outside_of_measurement_range :=
            SafetyRelatedData.invalidDueToOutsideOfMeasurementRange s;
          ROISafetyMsg.invalid_due_to_retro_reflector_interference :=
            SafetyRelatedData.invalidDueToRetroReflectorInterference s;
          ROISafetyMsg.contamination_error :=
            SafetyRelatedData.contaminationError s;
          ROISafetyMsg.quality_class := SafetyRelatedData.qualityClass s;
          ROISafetyMsg.slot_active := SafetyRelatedData.slotActive s |} |}.

(** [v.push_back(x)] *)
Definition push_back {A : Type} (v : list A) (x : A) : list A := v ++ [x].

(** The message [roi_array_msg] that [publishROI] fills in: the
    range-for loop pushes one message per region, in iteration order,
    onto the initially empty [rois]. *)
Definition roi_array_msg (header : Header.t)
    (frame_data : SafeVisionaryData.t) : ROIArray.t :=
  let rois :=
    fold_left (fun rois roi => push_back rois (roi_msg roi))
      (SafeVisionaryData.getRoiData frame_data) [] in
  {| ROIArray.header := header; ROIArray.rois := rois |}.

(** [CompoundPublisher::publishROI] *)
Definition publishROI (header : Header.t)
    (frame_data : SafeVisionaryData.t) : M unit :=
  emit (Entered roi_pub_) ;;
  publish_on roi_pub_ (MsgROIArray (roi_array_msg header frame_data)).

(** The body of the loop of [publishFieldInformation]. *)
Definition field_msg (field : FieldInformationData.t) : FieldInformation.t :=
  {| FieldInformation.field_id := FieldInformationData.fieldID field;
     FieldInformation.field_set_id := FieldInformationData.fieldSetID field;
     FieldInformation.field_active := FieldInformationData.fieldActive field;
     FieldInformation.field_result := FieldInformationData.fieldResult field;
     FieldInformation.eval_method := FieldInformationData.evalMethod field |}.

(** The message [field_array_msg] that [publishFieldInformation] fills
    in, by the same kind of loop. *)
Definition field_array_msg (header : Header.t)
    (frame_data : SafeVisionaryData.t) : FieldInformationArray.t :=
  let fields :=
    fold_left (fun fields field => push_back fields (field_msg field))
      (SafeVisionaryData.getFieldInformationData frame_data) [] in
  {| FieldInformationArray.header := header;
     FieldInformationArray.fields := fields |}.

(** [CompoundPublisher::publishFieldInformation] *)
Definition publishFieldInformation (header : Header.t)
    (frame_data : SafeVisionaryData.t) : M unit :=
  emit (Entered field_pub_) ;;
  publish_on field_pub_
    (MsgFieldInformationArray (field_array_msg header frame_data)).

(** [if (pub.getNumSubscribers() > 0) { body }] *)
Definition if_subscribed (c : Channel) (body : M unit) : M unit :=
  n <- numSubscribers c ;;
  if 0 <? n then body else ret tt.

(** [CompoundPublisher::publish], the entry point called once per frame. *)
Definition publish (header : Header.t) (frame_data : SafeVisionaryData.t)
  : M unit :=
  if_subscribed camera_info_pub_ (publishCameraInfo header frame_data) ;;
  if_subscribed pointcloud_pub_ (publishPointCloud header frame_data) ;;
  if_subscribed depth_pub_ (publishDepthImage header frame_data) ;;
  if_subscribed intensity_pub_ (publishIntensityImage header frame_data) ;;
  if_subscribed state_pub_ (publishStateMap header frame_data) ;;
  if_subscribed imu_pub_ (publishIMUData header frame_data) ;;
  if_subscribed device_status_pub_ (publishDeviceStatus header frame_data) ;;
  if_subscribed io_pub_ (publishIOs header frame_data) ;;
  if_subscribed roi_pub_ (publishROI header frame_data) ;;
  if_subscribed field_pub_ (publishFieldInformation header frame_data).

End Publisher.

(** ** Vocabulary of the properties *)

(** The vector [point_vec] that [publishPointCloud] packs: the generated
    points after the transform. *)
Definition points_of (f : SafeVisionaryData.t) : list PointXYZ.t :=
  SafeVisionaryData.transformPointCloud f
    (SafeVisionaryData.generatePointCloud f).

(** Height and width are pixel counts held in a C++ [int]. *)
Definition dims_in_range (f : SafeVisionaryData.t) : Prop :=
  (0 <= SafeVisionaryData.getHeight f <= INT_MAX) /\
  (0 <= SafeVisionaryData.getWidth f <= INT_MAX).

(** The three per-pixel maps hold one sample per pixel. *)
Definition maps_cover_grid (f : SafeVisionaryData.t) : Prop :=
  let n := SafeVisionaryData.getHeight f * SafeVisionaryData.getWidth f in
  Z.of_nat (length (SafeVisionaryData.getDistanceMap f)) = n /\
  Z.of_nat (length (SafeVisionaryData.getIntensityMap f)) = n /\
  Z.of_nat (length (SafeVisionaryData.getStateMap f)) = n.

Definition well_formed (f : SafeVisionaryData.t) : Prop :=
  dims_in_range f /\ maps_cover_grid f.

(** The byte size of the point buffer fits the 32-bit fields of the
    message in which it is computed. *)
Definition cloud_fits (f : SafeVisionaryData.t) : Prop :=
  SafeVisionaryData.getHeight f * SafeVisionaryData.getWidth f * 14 < 2 ^ 32.

(** The guard of [publishPointCloud] passes. *)
Definition lengths_match (f : SafeVisionaryData.t) : bool :=
  (length (SafeVisionaryData.getIntensityMap f) =? length (points_of f))%nat.

(** Points and intensities interleaved, 14 bytes per point. *)
Definition packed (big_endian_host : bool) (pts : list PointXYZ.t)
    (ints : list Z) : list byte :=
  flat_map
    (fun pv => PointXYZ_bytes big_endian_host (fst pv)
               ++ uint16_bytes big_endian_host (snd pv))
    (combine pts ints).

(** The publishers in the order in which [publish] visits them. *)
Definition all_channels : list Channel :=
  [camera_info_pub_; pointcloud_pub_; depth_pub_; intensity_pub_; state_pub_;
   imu_pub_; device_status_pub_; io_pub_; roi_pub_; field_pub_].

Definition subscribed (w : World) (c : Channel) : bool :=
  0 <? getNumSubscribers w c.

(** The channels whose transcode routine was entered, in order. *)
Fixpoint entered (evs : list Event) : list Channel :=
  match evs with
  | [] => []
  | Entered c :: evs' => c :: entered evs'
  | _ :: evs' => entered evs'
  end.

(** The messages handed to the transport, in order. *)
Fixpoint published (evs : list Event) : list (Channel * Message) :=
  match evs with
  | [] => []
  | Published c m :: evs' => (c, m) :: published evs'
  | _ :: evs' => published evs'
  end.

(** An event that, if it is a publication, carries [hdr]. *)
Definition carries (hdr : Header.t) (e : Event) : Prop :=
  match e with
  | Published _ m => header_of m = hdr
  | _ => True
  end.

(** [m], started in [w], ends with [r] after adding [evs] to the trace. *)
Definition runs {A : Type} (m : M A) (w : World) (r : Outcome A)
    (evs : list Event) : Prop :=
  m w = (r, record evs w).

(** Field by field, [m] holds what [r] holds. *)
Definition roi_copied (r : RoiData.t) (m : ROI.t) : Prop :=
  ROI.id m = RoiData.id r /\
  ROI.distance_value m = RoiData.distanceValue r /\
  ROIResultMsg.distance_safe (ROI.result_data m)
    = RoiResult.distanceSafe (RoiData.result r) /\
  ROIResultMsg.distance_valid (ROI.result_data m)
    = RoiResult.distanceValid (RoiData.result r) /\
  ROIResultMsg.result_safe (ROI.result_data m)
    = RoiResult.resultSafe (RoiData.result r) /\
  ROIResultMsg.result_valid (ROI.result_data m)
    = RoiResult.resultValid (RoiData.result r) /\
  ROIResultMsg.task_result (ROI.result_data m)
    = RoiResult.taskResult (RoiData.result r) /\
  ROISafetyMsg.invalid_due_to_invalid_pixels (ROI.safety_data m)
    = SafetyRelatedData.invalidDueToInvalidPixels (RoiData.safetyRelatedData r) /\
  ROISafetyMsg.invalid_due_to_variance (ROI.safety_data m)
    = SafetyRelatedData.invalidDueToVariance (RoiData.safetyRelatedData r) /\
  ROISafetyMsg.invalid_due_to_overexposure (ROI.safety_data m)
    = SafetyRelatedData.invalidDueToOverexposure (RoiData.safetyRelatedData r) /\
  ROISafetyMsg.invalid_due_to_underexposure (ROI.safety_data m)
    = SafetyRelatedData.invalidDueToUnderexposure (RoiData.safetyRelatedData r) /\
  ROISafetyMsg.invalid_due_to_temporal_variance (ROI.safety_data m)
    = SafetyRelatedData.invalidDueToTemporalVariance
        (RoiData.safetyRelatedData r) /\
  ROISafetyMsg.invalid_due_to_outside_of_measurement_range (ROI.safety_data m)
    = SafetyRelatedData.invalidDueToOutsideOfMeasurementRange
        (RoiData.safetyRelatedData r) /\
  ROISafetyMsg.invalid_due_to_retro_reflector_interference (ROI.safety_data m)
    = SafetyRelatedData.invalidDueToRetroReflectorInterference
        (RoiData.safetyRelatedData r) /\
  ROISafetyMsg.contamination_error (ROI.safety_data m)
    = SafetyRelatedData.contaminationError (RoiData.safetyRelatedData r) /\
  ROISafetyMsg.quality_class (ROI.safety_data m)
    = SafetyRelatedData.qualityClass (RoiData.safetyRelatedData r) /\
  ROISafetyMsg.slot_active (ROI.safety_data m)
    = SafetyRelatedData.slotActive (RoiData.safetyRelatedData r).

Definition field_copied (r : FieldInformationData.t) (m : FieldInformation.t)
  : Prop :=
  FieldInformation.field_id m = FieldInformationData.fieldID r /\
  FieldInformation.field_set_id m = FieldInformationData.fieldSetID r /\
  FieldInformation.field_active m = FieldInformationData.fieldActive r /\
  FieldInformation.field_result m = FieldInformationData.fieldResult r /\
  FieldInformation.eval_method m = FieldInformationData.evalMethod r.

(** The image a raster of [h] by [w] elements of [elem] bytes becomes
    when its memory holds exactly [bytes]. *)
Definition raster_image (big_endian_host : bool) (hdr : Header.t)
    (encoding : string) (h w : Z) (elem : nat) (bytes : list byte) : Image.t :=
  {| Image.header := hdr;
     Image.height := h;
     Image.width := w;
     Image.encoding := encoding;
     Image.is_bigendian := big_endian_host;
     Image.step := w * Z.of_nat elem;
     Image.data := bytes |}.

(** The four field descriptors of the point cloud. *)
Definition cloud_fields : list PointField.t :=
  [ {| PointField.name := "x"; PointField.offset := 0;
       PointField.datatype := PointField.FLOAT32; PointField.count := 1 |};
    {| PointField.name := "y"; PointField.offset := 4;
       PointField.datatype := PointField.FLOAT32; PointField.count := 1 |};
    {| PointField.name := "z"; PointField.offset := 8;
       PointField.datatype := PointField.FLOAT32; PointField.count := 1 |};
    {| PointField.name := "intensity"; PointField.offset := 12;
       PointField.datatype := PointField.UINT16; PointField.count := 1 |} ].

(** The byte count handed to [data.resize], as the 32-bit fields of the
    message compute it. *)
Definition cloud_size (f : SafeVisionaryData.t) : Z :=
  uint32_t (uint32_t (SafeVisionaryData.getHeight f)
            * uint32_t (14 * uint32_t (SafeVisionaryData.getWidth f))).

(** The point cloud message around a given data buffer. *)
Definition cloud_msg (hdr : Header.t) (f : SafeVisionaryData.t)
    (data : list byte) : PointCloud2.t :=
  {| PointCloud2.header := hdr;
     PointCloud2.height := uint32_t (SafeVisionaryData.getHeight f);
     PointCloud2.width := uint32_t (SafeVisionaryData.getWidth f);
     PointCloud2.fields := cloud_fields;
     PointCloud2.is_bigendian := false;
     PointCloud2.point_step := 14;
     PointCloud2.row_step := uint32_t (14 * uint32_t (SafeVisionaryData.getWidth f));
     PointCloud2.data := data;
     PointCloud2.is_dense := false |}.

(** The first four events of every run of [publishPointCloud]. *)
Definition cloud_prelude (f : SafeVisionaryData.t) : list Event :=
  [Entered pointcloud_pub_; DataResized (cloud_size f); PointsGenerated;
   PointsTransformed].

(** The trace of a routine that builds one message and publishes it. *)
Definition announce (c : Channel) (m : Message) : list Event :=
  [Entered c; Published c m].

Definition mismatch_text : string := "Missmatch point and intensity data.".

(** What the routine of each channel leaves in the trace when the maps
    of the frame cover the pixel grid and the point buffer is large
    enough for the points. *)
Definition routine_trace (big_endian_host : bool) (hdr : Header.t)
    (f : SafeVisionaryData.t) (c : Channel) : list Event :=
  let h := SafeVisionaryData.getHeight f in
  let w := SafeVisionaryData.getWidth f in
  match c with
  | camera_info_pub_ => announce c (MsgCameraInfo (camera_info hdr f))
  | pointcloud_pub_ =>
      cloud_prelude f
      ++ (if lengths_match f
          then [Published c
                  (MsgPointCloud2
                     (cloud_msg hdr f
                        (packed big_endian_host (points_of f)
                           (SafeVisionaryData.getIntensityMap f))))]
          else [RosInfo mismatch_text])
  | depth_pub_ =>
      announce c
        (MsgImage
           (raster_image big_endian_host hdr TYPE_16UC1 h w 2
              (flat_map (uint16_bytes big_endian_host)
                 (SafeVisionaryData.getDistanceMap f))))
  | intensity_pub_ =>
      announce c
        (MsgImage
           (raster_image big_endian_host hdr TYPE_16UC1 h w 2
              (flat_map (uint16_bytes big_endian_host)
                 (SafeVisionaryData.getIntensityMap f))))
  | state_pub_ =>
      announce c
        (MsgImage
           (raster_image big_endian_host hdr TYPE_8UC1 h w 1
              (flat_map (uint8_bytes big_endian_host)
                 (SafeVisionaryData.getStateMap f))))
  | imu_pub_ => announce c (MsgImu (imu_msg hdr f))
  | device_status_pub_ => announce c (MsgDeviceStatus (device_status_msg hdr f))
  | io_pub_ => announce c (MsgCameraIO (camera_io_msg hdr f))
  | roi_pub_ => announce c (MsgROIArray (roi_array_msg hdr f))
  | field_pub_ =>
      announce c (MsgFieldInformationArray (field_array_msg hdr f))
  end.

(** The events of a channel, or none when nobody listens to it. *)
Definition served (s : Channel -> Z) (c : Channel) (evs : list Event)
  : list Event :=
  if 0 <? s c then evs else [].

(** The trace of one frame under the subscriber counts [s]. *)
Definition frame_trace (big_endian_host : bool) (hdr : Header.t)
    (f : SafeVisionaryData.t) (s : Channel -> Z) : list Event :=
  flat_map (fun c => served s c (routine_trace big_endian_host hdr f c))
    all_channels.

(** Whether the routine of [c], once entered, publishes for [f]: only
    the point cloud routine can decline, on its length guard. *)
Definition delivers (f : SafeVisionaryData.t) (c : Channel) : bool :=
  match c with
  | pointcloud_pub_ => lengths_match f
  | _ => true
  end.

(** Two worlds in which the transport reports the same subscribers. *)
Definition agree (w1 w2 : World) : Prop :=
  forall c, getNumSubscribers w1 c = getNumSubscribers w2 c.

(** [m] only ever adds events satisfying [P] to the trace, and what it
    returns satisfies [Q]. *)
Definition keeps {A : Type} (P : Event -> Prop) (Q : A -> Prop) (m : M A)
  : Prop :=
  forall w, exists out,
    snd (m w) = record out w /\ Forall P out /\
    (forall a, fst (m w) = Ret a -> Q a).

(** [m] does the same in any two worlds with the same subscribers. *)
Definition steady {A : Type} (m : M A) : Prop :=
  forall w1 w2, agree w1 w2 ->
    exists r out, runs m w1 r out /\ runs m w2 r out.

(** The channel an event belongs to: the buffer, point and log events
    arise in [publishPointCloud] only. *)
Definition channel_of (e : Event) : Channel :=
  match e with
  | Entered c => c
  | Published c _ => c
  | DataResized _ | PointsGenerated | PointsTransformed | RosInfo _ =>
      pointcloud_pub_
  end.

(** The value of a byte string read least significant byte first. *)
Definition le_value (bs : list byte) : Z :=
  fold_right (fun b acc => b + 256 * acc) 0 bs.

(** The value of a scalar's bytes under the byte order [big_endian]. *)
Definition object_value (big_endian : bool) (bs : list byte) : Z :=
  if big_endian then le_value (rev bs) else le_value bs.

(** Element [i] of a buffer of [k]-byte elements. *)
Definition element (k i : nat) (data : list byte) : list byte :=
  firstn k (skipn (k * i) data).

(** [img] is the raster of [vec]: [h] rows of [w] samples of [elem]
    bytes under [encoding], and reading sample [i] in the byte order
    the image declares gives back entry [i] of [vec]. *)
Definition image_holds (img : Image.t) (h w : Z) (encoding : string)
    (elem : nat) (vec : list Z) : Prop :=
  Image.height img = h /\
  Image.width img = w /\
  Image.encoding img = encoding /\
  Image.step img = w * Z.of_nat elem /\
  Z.of_nat (length (Image.data img)) = Image.step img * Image.height img /\
  forall (i : nat) (v : Z),
    nth_error vec i = Some v ->
    0 <= v < 256 ^ Z.of_nat elem ->
    object_value (Image.is_bigendian img) (element elem i (Image.data img)) = v.

(** The [k] bytes at offset [off] of point [i] in a point buffer. *)
Definition cloud_field (k off i : nat) (data : list byte) : list byte :=
  firstn k (skipn (14 * i + off) data).

(** How often [c] occurs in [l]. *)
Definition times (c : Channel) (l : list Channel) : nat :=
  length (filter (Channel_eqb c) l).

(** [m] leaves the trace as it is. *)
Definition silent {A : Type} (m : M A) : Prop :=
  forall w, exists r, m w = (r, w).

(** The routine of channel [c]: whatever the world, it enters once and
    either publishes one message on [c] and returns, or publishes
    nothing. *)
Definition routine_of (c : Channel) (body : M unit) : Prop :=
  forall w, exists r evs,
    runs body w r evs /\ entered evs = [c] /\
    (map fst (published evs) = [c] /\ r = Ret tt
     \/ map fst (published evs) = []).

(** [m] works through the channels [l] in order: it enters the
    subscribed ones among the first [k], all of [l] if it returns, and
    publishes on a channel no more often than it entered it. *)
Definition visits (l : list Channel) (m : M unit) : Prop :=
  forall w, exists r out k,
    m w = (r, record out w) /\
    entered out = filter (subscribed w) (firstn k l) /\
    (r = Ret tt -> entered out = filter (subscribed w) l) /\
    forall c, (times c (map fst (published out)) <= times c (entered out))%nat.

(** The channels whose routines allocate and copy buffers. *)
Definition buffer_channels : list Channel :=
  [pointcloud_pub_; depth_pub_; intensity_pub_; state_pub_].

(** An event other than a log line. *)
Definition unlogged (e : Event) : Prop :=
  match e with
  | RosInfo _ => False
  | _ => True
  end.

(** [m] always runs to its end. *)
Definition returns (m : M unit) : Prop :=
  forall w, exists out, runs m w (Ret tt) out.

(** No raster or buffer of the frame is too small for what is copied
    into it: no map is longer than the pixel grid, and when the point
    routine gets past its guard the resized buffer holds fourteen bytes
    for every point. *)
Definition buffers_suffice (f : SafeVisionaryData.t) : Prop :=
  let n := SafeVisionaryData.getHeight f * SafeVisionaryData.getWidth f in
  Z.of_nat (length (SafeVisionaryData.getDistanceMap f)) <= n /\
  Z.of_nat (length (SafeVisionaryData.getIntensityMap f)) <= n /\
  Z.of_nat (length (SafeVisionaryData.getStateMap f)) <= n /\
  (lengths_match f = true ->
   14 * Z.of_nat (length (points_of f)) <= cloud_size f).

(** [m] runs to its end, and the channels it publishes on are those of
    [l] that have a subscriber and whose routine delivers for [f], in
    the order of [l]. *)
Definition serves (f : SafeVisionaryData.t) (l : list Channel) (m : M unit)
  : Prop :=
  forall w, exists out,
    runs m w (Ret tt) out /\
    map fst (published out)
    = filter (fun c => subscribed w c && delivers f c) l.

(** ** Sample frames *)

Module Sample.

Definition params : CameraParameters.t :=
  {| CameraParameters.fx := 1.5; CameraParameters.fy := 2.5;
     CameraParameters.cx := 3.5; CameraParameters.cy := 4.5;
     CameraParameters.k1 := 0.5; CameraParameters.k2 := 0.25;
     CameraParameters.p1 := 0.125; CameraParameters.p2 := 0.75;
     CameraParameters.k3 := 2 |}%float.

Definition imu : IMUData.t :=
  {| IMUData.angularVelocity :=
       {| IMUVector.X := 1; IMUVector.Y := 2; IMUVector.Z := 3 |};
     IMUData.acceleration :=
       {| IMUVector.X := 4; IMUVector.Y := 5; IMUVector.Z := 6 |};
     IMUData.orientation :=
       {| IMUQuaternion.X := 0; IMUQuaternion.Y := 0; IMUQuaternion.Z := 0;
          IMUQuaternion.W := 1 |} |}%float.

Definition status : DeviceStatusData.t :=
  DeviceStatusData.Build_t (GeneralStatus.Build_t 0 0 1 0 0 0 1 0 0) 0 0 1
    (ActiveMonitoringCase.Build_t 1 2 3 4) 5.

Definition io : LocalIOData.t :=
  LocalIOData.Build_t
    (UniversalIOConfigured.Build_t 1 1 0 0)
    (UniversalIODirection.Build_t 0 1 0 0)
    (UniversalIOInputValue.Build_t 1 0 0 0)
    (UniversalIOOutputValue.Build_t 0 1 0 0)
    (OssdsState.Build_t 1 1 0 0) 7 8 9 10 11 3.

Definition roi (i : Z) : RoiData.t :=
  RoiData.Build_t i (100 * i) (RoiResult.Build_t 1 1 0 1 i)
    (SafetyRelatedData.Build_t 0 1 0 0 0 0 0 0 2 1).

Definition field (i : Z) : FieldInformationData.t :=
  FieldInformationData.Build_t i (i + 1) 1 0 2.

Definition point (a : Z) : PointXYZ.t :=
  {| PointXYZ.x := a; PointXYZ.y := a + 1; PointXYZ.z := a + 2 |}.

(** A frame of [h] by [w] pixels with the given maps whose point
    routines yield [pts]. *)
Definition frame (h w : Z) (dist ints st : list Z) (pts : list PointXYZ.t)
  : SafeVisionaryData.t :=
  {| SafeVisionaryData.getHeight := h;
     SafeVisionaryData.getWidth := w;
     SafeVisionaryData.getCameraParameters := params;
     SafeVisionaryData.getDistanceMap := dist;
     SafeVisionaryData.getIntensityMap := ints;
     SafeVisionaryData.getStateMap := st;
     SafeVisionaryData.getIMUData := imu;
     SafeVisionaryData.getDeviceStatus := 2;
     SafeVisionaryData.getDeviceStatusData := status;
     SafeVisionaryData.getLocalIOData := io;
     SafeVisionaryData.getRoiData := [roi 1; roi 2];
     SafeVisionaryData.getFieldInformationData := [field 5; field 6; field 7];
     SafeVisionaryData.generatePointCloud := pts;
     SafeVisionaryData.transformPointCloud := fun l => l |}.

Definition header : Header.t :=
  {| Header.seq := 7; Header.stamp := 1000; Header.frame_id := "camera" |}.

(** A world with nothing published yet. *)
Definition world (subs : Channel -> Z) (fill : byte) : World :=
  {| getNumSubscribers := subs; uninitialized := fun _ => fill; trace := [] |}.

Definition everybody : Channel -> Z := fun _ => 1.

(** Only the inertial and the region channel have a subscriber. *)
Definition imu_and_roi (c : Channel) : Z :=
  match c with
  | imu_pub_ => 1
  | roi_pub_ => 3
  | _ => 0
  end.

(** One row of two pixels, every map and the point vector complete. *)
Definition two_pixels : SafeVisionaryData.t :=
  frame 1 2 [10; 20] [258; 3] [1; 2] [point 1; point 16909060].

(** The same frame when the point routines yield a single point. *)
Definition one_point_short : SafeVisionaryData.t :=
  frame 1 2 [10; 20] [258; 3] [1; 2] [point 1].

(** A square frame of [65536 * 65536] pixels, all samples zero. *)
Definition side : Z := 65536.
Definition huge_count : nat := Z.to_nat (side * side).
Definition huge : SafeVisionaryData.t :=
  frame side side (repeat 0 huge_count) (repeat 0 huge_count)
    (repeat 0 huge_count) (repeat (point 0) huge_count).

(** One row of [306783379] pixels: [14] bytes per point are ten bytes
    more than [2 ^ 32]. *)
Definition wide_count : Z := 306783379.
Definition wide : SafeVisionaryData.t :=
  frame 1 wide_count (repeat 0 (Z.to_nat wide_count))
    (repeat 0 (Z.to_nat wide_count)) (repeat 0 (Z.to_nat wide_count))
    (repeat (point 0) (Z.to_nat wide_count)).

(** Two pixels for which neither an intensity nor a point has been
    delivered. *)
Definition no_points : SafeVisionaryData.t :=
  frame 1 2 [10; 20] [] [1; 2] [].

(** Two pixels with a single distance, intensity and state sample and a
    single point. *)
Definition half_filled : SafeVisionaryData.t :=
  frame 1 2 [10] [258] [1] [point 1].


(** Two pixels with one intensity sample and two points. *)
Definition short_intensity : SafeVisionaryData.t :=
  frame 1 2 [10; 20] [258] [1; 2] [point 1; point 16909060].

(** Only the depth image has a subscriber. *)
Definition depth_only (c : Channel) : Z :=
  match c with
  | depth_pub_ => 1
  | _ => 0
  end.

End Sample.

(** ** Bytes and copies *)

Lemma le_bytes_length (n : nat) : forall v, length (le_bytes n v) = n.
Proof.
  induction n as [|n IH]; intro v; simpl; [reflexivity|].
  now rewrite IH.
Qed.

Lemma object_bytes_length (be : bool) (n : nat) (v : Z) :
  length (object_bytes be n v) = n.
Proof.
  unfold object_bytes. destruct be.
  - rewrite length_rev. apply le_bytes_length.
  - apply le_bytes_length.
Qed.

Lemma uint16_bytes_length (be : bool) (v : Z) :
  length (uint16_bytes be v) = 2%nat.
Proof. apply object_bytes_length. Qed.

Lemma uint8_bytes_length (be : bool) (v : Z) :
  length (uint8_bytes be v) = 1%nat.
Proof. apply object_bytes_length. Qed.

Lemma PointXYZ_bytes_length (be : bool) (p : PointXYZ.t) :
  length (PointXYZ_bytes be p) = 12%nat.
Proof.
  unfold PointXYZ_bytes, float_bytes.
  rewrite !length_app, !object_bytes_length. reflexivity.
Qed.

Lemma flat_map_constant_length {A B : Type} (f : A -> list B) (k : nat) :
  (forall a, length (f a) = k) ->
  forall l, length (flat_map f l) = (k * length l)%nat.
Proof.
  intros Hk l. induction l as [|a l IH]; simpl.
  - lia.
  - rewrite length_app, Hk, IH. lia.
Qed.

Lemma memcpy_inside (dst src : list byte) (off : nat) :
  (off + length src <= length dst)%nat ->
  memcpy dst off src
  = Ret (firstn off dst ++ src ++ skipn (off + length src) dst).
Proof.
  intro H. unfold memcpy.
  destruct (Nat.leb_spec (off + length src) (length dst)); [reflexivity|lia].
Qed.

Lemma memcpy_outside (dst src : list byte) (off : nat) :
  (length dst < off + length src)%nat ->
  memcpy dst off src = Abort OutOfBounds.
Proof.
  intro H. unfold memcpy.
  destruct (Nat.leb_spec (off + length src) (length dst)); [lia|reflexivity].
Qed.

(** Copying right behind an already written prefix. *)
Lemma memcpy_after (done rest src : list byte) :
  (length src <= length rest)%nat ->
  memcpy (done ++ rest) (length done) src
  = Ret (done ++ src ++ skipn (length src) rest).
Proof.
  intro H. rewrite memcpy_inside by (rewrite length_app; lia).
  f_equal. rewrite firstn_app, firstn_all, Nat.sub_diag, firstn_0, app_nil_r.
  f_equal. f_equal.
  rewrite skipn_app.
  rewrite skipn_all2 by lia. simpl. f_equal. lia.
Qed.

Lemma memcpy_after_outside (done rest src : list byte) :
  (length rest < length src)%nat ->
  memcpy (done ++ rest) (length done) src = Abort OutOfBounds.
Proof.
  intro H. apply memcpy_outside. rewrite length_app. lia.
Qed.

Lemma memcpy_length (dst src out : list byte) (off : nat) :
  memcpy dst off src = Ret out -> length out = length dst.
Proof.
  unfold memcpy.
  destruct (Nat.leb_spec (off + length src) (length dst)); [|discriminate].
  intro E. injection E as <-.
  rewrite !length_app, length_firstn, length_skipn. lia.
Qed.

(** ** The packing loop *)

Section Packing.

Variable be : bool.

Lemma pack_points_fits :
  forall (pts : list PointXYZ.t) (ints : list Z) (done rest : list byte)
         (i : nat),
    length done = (14 * i)%nat ->
    length ints = length pts ->
    (14 * length pts <= length rest)%nat ->
    pack_points be 14 0 12 i pts ints (done ++ rest)
    = Ret (done ++ packed be pts ints ++ skipn (14 * length pts) rest).
Proof.
  induction pts as [|p pts IH]; intros ints done rest i Hd Hl Hr.
  - simpl. now destruct ints.
  - destruct ints as [|v ints]; [discriminate|].
    cbn [length] in Hl, Hr. injection Hl as Hl.
    cbn [pack_points].
    replace (Z.to_nat (Z.of_nat i * 14 + 0)) with (length done) by lia.
    rewrite memcpy_after by (rewrite PointXYZ_bytes_length; lia).
    rewrite PointXYZ_bytes_length.
    replace (Z.to_nat (Z.of_nat i * 14 + 12))
      with (length (done ++ PointXYZ_bytes be p))
      by (rewrite length_app, PointXYZ_bytes_length; lia).
    rewrite (app_assoc done).
    rewrite memcpy_after
      by (rewrite uint16_bytes_length, length_skipn; lia).
    rewrite uint16_bytes_length, skipn_skipn.
    rewrite (app_assoc (done ++ PointXYZ_bytes be p)).
    rewrite IH.
    + unfold packed. cbn [combine flat_map fst snd].
      rewrite skipn_skipn, <- !app_assoc.
      do 6 f_equal. cbn [length]. lia.
    + rewrite !length_app, PointXYZ_bytes_length, uint16_bytes_length. lia.
    + assumption.
    + rewrite length_skipn. lia.
Qed.

Lemma pack_points_overflows :
  forall (pts : list PointXYZ.t) (ints : list Z) (done rest : list byte)
         (i : nat),
    length done = (14 * i)%nat ->
    length ints = length pts ->
    (length rest < 14 * length pts)%nat ->
    pack_points be 14 0 12 i pts ints (done ++ rest) = Abort OutOfBounds.
Proof.
  induction pts as [|p pts IH]; intros ints done rest i Hd Hl Hr.
  - simpl in Hr. lia.
  - destruct ints as [|v ints]; [discriminate|].
    cbn [length] in Hl, Hr. injection Hl as Hl.
    cbn [pack_points].
    replace (Z.to_nat (Z.of_nat i * 14 + 0)) with (length done) by lia.
    destruct (Nat.lt_ge_cases (length rest) 12) as [H12|H12].
    { rewrite memcpy_after_outside
        by (rewrite PointXYZ_bytes_length; lia).
      reflexivity. }
    rewrite memcpy_after by (rewrite PointXYZ_bytes_length; lia).
    rewrite PointXYZ_bytes_length.
    replace (Z.to_nat (Z.of_nat i * 14 + 12))
      with (length (done ++ PointXYZ_bytes be p))
      by (rewrite length_app, PointXYZ_bytes_length; lia).
    rewrite (app_assoc done).
    destruct (Nat.lt_ge_cases (length rest) 14) as [H14|H14].
    { rewrite memcpy_after_outside
        by (rewrite uint16_bytes_length, length_skipn; lia).
      reflexivity. }
    rewrite memcpy_after
      by (rewrite uint16_bytes_length, length_skipn; lia).
    rewrite uint16_bytes_length, skipn_skipn.
    rewrite (app_assoc (done ++ PointXYZ_bytes be p)).
    apply IH.
    + rewrite !length_app, PointXYZ_bytes_length, uint16_bytes_length. lia.
    + assumption.
    + rewrite length_skipn. lia.
Qed.

End Packing.

(** ** Slices of the packed buffer *)

Lemma firstn_prefix {A : Type} (a b : list A) (n : nat) :
  length a = n -> firstn n (a ++ b) = a.
Proof.
  intros <-. rewrite firstn_app, firstn_all, Nat.sub_diag, firstn_0.
  apply app_nil_r.
Qed.

Lemma skipn_prefix {A : Type} (a b : list A) (n k : nat) :
  length a = n -> skipn (n + k) (a ++ b) = skipn k b.
Proof.
  intros <-. rewrite skipn_app, skipn_all2 by lia.
  simpl. f_equal. lia.
Qed.

Lemma packed_cons (be : bool) (p : PointXYZ.t) (pts : list PointXYZ.t)
    (v : Z) (ints : list Z) :
  packed be (p :: pts) (v :: ints)
  = (PointXYZ_bytes be p ++ uint16_bytes be v) ++ packed be pts ints.
Proof. reflexivity. Qed.

Lemma packed_length (be : bool) :
  forall (pts : list PointXYZ.t) (ints : list Z),
    length ints = length pts ->
    length (packed be pts ints) = (14 * length pts)%nat.
Proof.
  induction pts as [|p pts IH]; intros [|v ints] H; try discriminate.
  - reflexivity.
  - rewrite packed_cons, !length_app, PointXYZ_bytes_length,
      uint16_bytes_length, IH by (simpl in H; lia).
    simpl length. lia.
Qed.

Lemma packed_point (be : bool) (d : PointXYZ.t) :
  forall (pts : list PointXYZ.t) (ints : list Z) (i : nat),
    length ints = length pts ->
    (i < length pts)%nat ->
    firstn 12 (skipn (14 * i) (packed be pts ints))
    = PointXYZ_bytes be (nth i pts d).
Proof.
  induction pts as [|p pts IH]; intros [|v ints] i Hl Hi;
    try discriminate; simpl in Hi; [lia|].
  rewrite packed_cons. destruct i as [|i].
  - rewrite Nat.mul_0_r, skipn_0, <- app_assoc.
    apply firstn_prefix, PointXYZ_bytes_length.
  - replace (14 * S i)%nat with (14 + 14 * i)%nat by lia.
    rewrite skipn_prefix
      by (rewrite length_app, PointXYZ_bytes_length, uint16_bytes_length;
          reflexivity).
    simpl nth. apply IH; simpl in Hl; lia.
Qed.

Lemma packed_intensity (be : bool) (d : Z) :
  forall (pts : list PointXYZ.t) (ints : list Z) (i : nat),
    length ints = length pts ->
    (i < length pts)%nat ->
    firstn 2 (skipn (14 * i + 12) (packed be pts ints))
    = uint16_bytes be (nth i ints d).
Proof.
  induction pts as [|p pts IH]; intros [|v ints] i Hl Hi;
    try discriminate; simpl in Hi; [lia|].
  rewrite packed_cons. destruct i as [|i].
  - rewrite Nat.mul_0_r, Nat.add_0_l, <- app_assoc.
    rewrite <- (Nat.add_0_r 12), skipn_prefix, skipn_0
      by apply PointXYZ_bytes_length.
    apply firstn_prefix, uint16_bytes_length.
  - replace (14 * S i + 12)%nat with (14 + (14 * i + 12))%nat by lia.
    rewrite skipn_prefix
      by (rewrite length_app, PointXYZ_bytes_length, uint16_bytes_length;
          reflexivity).
    simpl nth. apply IH; simpl in Hl; lia.
Qed.

(** ** Running computations *)

Lemma record_nil (w : World) : record [] w = w.
Proof. destruct w. unfold record. simpl. now rewrite app_nil_r. Qed.

Lemma record_record (e1 e2 : list Event) (w : World) :
  record e2 (record e1 w) = record (e1 ++ e2) w.
Proof. unfold record. simpl. now rewrite app_assoc. Qed.

Lemma emitted_record (w : World) (evs : list Event) :
  emitted w (record evs w) = evs.
Proof.
  unfold emitted, record. simpl.
  rewrite <- (Nat.add_0_r (length (trace w))).
  now rewrite skipn_prefix.
Qed.

Lemma runs_ret {A : Type} (a : A) (w : World) : runs (ret a) w (Ret a) [].
Proof. unfold runs, ret. now rewrite record_nil. Qed.

Lemma runs_emit (e : Event) (w : World) : runs (emit e) w (Ret tt) [e].
Proof. reflexivity. Qed.

Lemma runs_lift {A : Type} (o : Outcome A) (w : World) : runs (lift o) w o [].
Proof. unfold runs, lift. now rewrite record_nil. Qed.

Lemma runs_throw {A : Type} (why : Failure) (w : World) :
  runs (@throw A why) w (Abort why) [].
Proof. unfold runs, throw. now rewrite record_nil. Qed.

Lemma runs_bind {A B : Type} (m : M A) (k : A -> M B) (w : World) (a : A)
    (r : Outcome B) (e1 e2 : list Event) :
  runs m w (Ret a) e1 ->
  runs (k a) (record e1 w) r e2 ->
  runs (bind m k) w r (e1 ++ e2).
Proof.
  unfold runs, bind. intros -> ->. now rewrite record_record.
Qed.

Lemma runs_bind_abort {A B : Type} (m : M A) (k : A -> M B) (w : World)
    (why : Failure) (e1 : list Event) :
  runs m w (Abort why) e1 ->
  runs (bind m k) w (Abort why) e1.
Proof. unfold runs, bind. now intros ->. Qed.

Lemma runs_unique {A : Type} (m : M A) (w : World) (r r' : Outcome A)
    (e e' : list Event) :
  runs m w r e -> runs m w r' e' -> r = r' /\ e = e'.
Proof.
  unfold runs. intros H H'. rewrite H in H'. injection H' as Hr Ht.
  split; [assumption|].
  now apply app_inv_head in Ht.
Qed.

(** ** The point cloud routine *)

Lemma uint32_small (v : Z) : 0 <= v < 2 ^ 32 -> uint32_t v = v.
Proof. intro H. unfold uint32_t, wrap. now apply Z.mod_small. Qed.

Lemma cloud_size_wraps (f : SafeVisionaryData.t) :
  cloud_size f
  = (SafeVisionaryData.getHeight f * SafeVisionaryData.getWidth f * 14)
      mod 2 ^ 32.
Proof.
  unfold cloud_size, uint32_t, wrap.
  rewrite Z.mul_mod_idemp_l, Z.mul_mod_idemp_r by lia.
  rewrite Z.mul_assoc, Z.mul_mod_idemp_r by lia.
  f_equal. lia.
Qed.

Lemma cloud_size_exact (f : SafeVisionaryData.t) :
  0 <= SafeVisionaryData.getHeight f * SafeVisionaryData.getWidth f ->
  cloud_fits f ->
  cloud_size f
  = SafeVisionaryData.getHeight f * SafeVisionaryData.getWidth f * 14.
Proof.
  unfold cloud_fits. intros H0 H1.
  rewrite cloud_size_wraps. apply Z.mod_small. lia.
Qed.

(** The routine with its field bookkeeping carried out. *)
Lemma publishPointCloud_steps (be : bool) (hdr : Header.t)
    (f : SafeVisionaryData.t) :
  publishPointCloud be hdr f
  = bind (emit (Entered pointcloud_pub_)) (fun _ =>
    bind (emit (DataResized (cloud_size f))) (fun _ =>
    bind (emit PointsGenerated) (fun _ =>
    bind (emit PointsTransformed) (fun _ =>
    if negb (lengths_match f)
    then emit (RosInfo "Missmatch point and intensity data.")
    else
      bind (lift (pack_points be 14 0 12 0 (points_of f)
                    (SafeVisionaryData.getIntensityMap f)
                    (repeat 0 (Z.to_nat (cloud_size f)))))
        (fun data =>
           publish_on pointcloud_pub_ (MsgPointCloud2 (cloud_msg hdr f data))))))).
Proof. reflexivity. Qed.

Lemma cloud_prelude_runs (f : SafeVisionaryData.t) {A : Type} (k : M A)
    (w : World) (r : Outcome A) (evs : list Event) :
  runs k (record (cloud_prelude f) w) r evs ->
  runs (bind (emit (Entered pointcloud_pub_)) (fun _ =>
        bind (emit (DataResized (cloud_size f))) (fun _ =>
        bind (emit PointsGenerated) (fun _ =>
        bind (emit PointsTransformed) (fun _ => k))))) w r
    (cloud_prelude f ++ evs).
Proof.
  unfold runs. intro H. unfold bind, emit. rewrite !record_record.
  match goal with
  | |- k (record ?l w) = _ => change l with (cloud_prelude f)
  end.
  rewrite H. now rewrite record_record.
Qed.

Lemma publishPointCloud_mismatch (be : bool) (hdr : Header.t)
    (f : SafeVisionaryData.t) (w : World) :
  lengths_match f = false ->
  runs (publishPointCloud be hdr f) w (Ret tt)
    (cloud_prelude f ++ [RosInfo "Missmatch point and intensity data."]).
Proof.
  intro H. rewrite publishPointCloud_steps.
  apply cloud_prelude_runs. rewrite H. apply runs_emit.
Qed.

Lemma publishPointCloud_packs (be : bool) (hdr : Header.t)
    (f : SafeVisionaryData.t) (w : World) (data : list byte) :
  lengths_match f = true ->
  pack_points be 14 0 12 0 (points_of f) (SafeVisionaryData.getIntensityMap f)
    (repeat 0 (Z.to_nat (cloud_size f))) = Ret data ->
  runs (publishPointCloud be hdr f) w (Ret tt)
    (cloud_prelude f
     ++ [Published pointcloud_pub_ (MsgPointCloud2 (cloud_msg hdr f data))]).
Proof.
  intros H Hp. rewrite publishPointCloud_steps.
  apply cloud_prelude_runs. rewrite H, Hp. simpl negb. cbv iota.
  apply (runs_bind _ _ _ data _ [] _); [apply runs_lift|apply runs_emit].
Qed.

Lemma publishPointCloud_aborts (be : bool) (hdr : Header.t)
    (f : SafeVisionaryData.t) (w : World) (why : Failure) :
  lengths_match f = true ->
  pack_points be 14 0 12 0 (points_of f) (SafeVisionaryData.getIntensityMap f)
    (repeat 0 (Z.to_nat (cloud_size f))) = Abort why ->
  runs (publishPointCloud be hdr f) w (Abort why) (cloud_prelude f).
Proof.
  intros H Hp. rewrite publishPointCloud_steps.
  rewrite <- (app_nil_r (cloud_prelude f)).
  apply cloud_prelude_runs. rewrite H, Hp. simpl negb. cbv iota.
  apply runs_bind_abort, runs_lift.
Qed.

(** Packing into the zeroed buffer: the writes stay inside exactly
    when fourteen bytes per point fit. *)
Lemma pack_into_zeros (be : bool) (pts : list PointXYZ.t) (ints : list Z)
    (n : nat) :
  length ints = length pts ->
  pack_points be 14 0 12 0 pts ints (repeat 0 n)
  = if (14 * length pts <=? n)%nat
    then Ret (packed be pts ints ++ skipn (14 * length pts) (repeat 0 n))
    else Abort OutOfBounds.
Proof.
  intro Hl.
  destruct (Nat.leb_spec (14 * length pts) n) as [H|H].
  - apply (pack_points_fits be pts ints [] (repeat 0 n) 0);
      [reflexivity|assumption|now rewrite repeat_length].
  - apply (pack_points_overflows be pts ints [] (repeat 0 n) 0);
      [reflexivity|assumption|now rewrite repeat_length].
Qed.

Lemma lengths_match_true (f : SafeVisionaryData.t) :
  lengths_match f = true
  <-> length (SafeVisionaryData.getIntensityMap f) = length (points_of f).
Proof. apply Nat.eqb_eq. Qed.

(** ** The raster helpers *)

Lemma fresh_length (n : nat) (w : World) :
  length (map (uninitialized w) (seq 0 n)) = n.
Proof. now rewrite length_map, length_seq. Qed.

Lemma Mat_create_runs (rows cols : Z) (elem : nat) (w : World) :
  0 <= rows -> 0 <= cols ->
  Mat_create rows cols elem w
  = (Ret {| Mat.rows := rows; Mat.cols := cols; Mat.elemSize := elem;
            Mat.data := map (uninitialized w)
                          (seq 0 (Z.to_nat (rows * cols) * elem)) |}, w).
Proof.
  intros Hr Hc. unfold Mat_create.
  destruct (Z.leb_spec 0 rows); [|lia].
  destruct (Z.leb_spec 0 cols); [|lia].
  reflexivity.
Qed.

(** What both helpers do once the raster exists: copy, then wrap. *)
Lemma raster_copy (be : bool) (hdr : Header.t) (enc : string)
    (rows cols : Z) (elem : nat) (src : list byte) (w : World) :
  0 <= rows -> 0 <= cols ->
  bind (Mat_create rows cols elem)
    (fun image =>
       bind (lift (memcpy (Mat.data image) 0 src))
         (fun data =>
            ret (toImageMsg be hdr enc
                   {| Mat.rows := Mat.rows image; Mat.cols := Mat.cols image;
                      Mat.elemSize := Mat.elemSize image;
                      Mat.data := data |}))) w
  = (match memcpy (map (uninitialized w)
                     (seq 0 (Z.to_nat (rows * cols) * elem))) 0 src with
     | Ret data =>
         Ret (toImageMsg be hdr enc
                {| Mat.rows := rows; Mat.cols := cols; Mat.elemSize := elem;
                   Mat.data := data |})
     | Abort why => Abort why
     end, w).
Proof.
  intros Hr Hc. unfold bind at 1. rewrite Mat_create_runs by assumption.
  unfold bind, lift, ret. cbn [Mat.data Mat.rows Mat.cols Mat.elemSize].
  now destruct (memcpy _ 0 src).
Qed.

Lemma memcpy_whole (dst src : list byte) :
  length src = length dst -> memcpy dst 0 src = Ret src.
Proof.
  intro H. rewrite memcpy_inside by (simpl; lia).
  simpl. rewrite skipn_all2 by lia. now rewrite app_nil_r.
Qed.

Lemma toImageMsg_exact (be : bool) (hdr : Header.t) (enc : string)
    (h w : Z) (elem : nat) (bytes : list byte) :
  0 <= h < 2 ^ 32 -> 0 <= w < 2 ^ 32 -> w * Z.of_nat elem < 2 ^ 32 ->
  length bytes = (Z.to_nat (h * w) * elem)%nat ->
  toImageMsg be hdr enc
    {| Mat.rows := h; Mat.cols := w; Mat.elemSize := elem; Mat.data := bytes |}
  = raster_image be hdr enc h w elem bytes.
Proof.
  intros Hh Hw Hs Hl. unfold toImageMsg, raster_image.
  cbn [Mat.rows Mat.cols Mat.elemSize Mat.data].
  rewrite !uint32_small by lia.
  f_equal. apply firstn_all2. rewrite Hl. nia.
Qed.

Section Rasters.

Variable be : bool.
Variable hdr : Header.t.
Variable f : SafeVisionaryData.t.
Variable w : World.
Hypothesis dims : dims_in_range f.

Let h := SafeVisionaryData.getHeight f.
Let wd := SafeVisionaryData.getWidth f.

Lemma Vec16ToImage_inside (vec : list Z) :
  (exists img, Vec16ToImage be hdr f vec w = (Ret img, w))
  <-> Z.of_nat (length vec) <= h * wd.
Proof.
  destruct dims as [[Hh _] [Hw _]].
  unfold Vec16ToImage. rewrite raster_copy by assumption.
  unfold memcpy.
  rewrite fresh_length,
    (flat_map_constant_length _ 2%nat (uint16_bytes_length be)).
  fold h wd.
  destruct (Nat.leb_spec (0 + 2 * length vec)
              (Z.to_nat (h * wd) * sizeof_uint16_t)) as [H|H];
    unfold sizeof_uint16_t in H.
  - split; [intros _; nia|intros _; eexists; reflexivity].
  - split; [intros [img E]; discriminate|intro; nia].
Qed.

Lemma Vec16ToImage_exact (vec : list Z) :
  Z.of_nat (length vec) = h * wd ->
  Vec16ToImage be hdr f vec w
  = (Ret (raster_image be hdr TYPE_16UC1 h wd 2
            (flat_map (uint16_bytes be) vec)), w).
Proof.
  intro Hl. destruct dims as [[Hh Hh'] [Hw Hw']]. unfold INT_MAX in *.
  fold h in Hh, Hh'. fold wd in Hw, Hw'.
  unfold Vec16ToImage. rewrite raster_copy by assumption. fold h wd.
  assert (Hn : length (flat_map (uint16_bytes be) vec)
               = (Z.to_nat (h * wd) * sizeof_uint16_t)%nat).
  { rewrite (flat_map_constant_length _ 2%nat (uint16_bytes_length be)).
    unfold sizeof_uint16_t. lia. }
  rewrite memcpy_whole by (now rewrite fresh_length).
  rewrite toImageMsg_exact; try assumption; try reflexivity;
    unfold sizeof_uint16_t; lia.
Qed.

Lemma Vec8ToImage_inside (vec : list Z) :
  (exists img, Vec8ToImage be hdr f vec w = (Ret img, w))
  <-> Z.of_nat (length vec) <= h * wd.
Proof.
  destruct dims as [[Hh _] [Hw _]].
  unfold Vec8ToImage. rewrite raster_copy by assumption.
  unfold memcpy.
  rewrite fresh_length,
    (flat_map_constant_length _ 1%nat (uint8_bytes_length be)).
  fold h wd.
  destruct (Nat.leb_spec (0 + 1 * length vec)
              (Z.to_nat (h * wd) * sizeof_uint8_t)) as [H|H];
    unfold sizeof_uint8_t in H.
  - split; [intros _; nia|intros _; eexists; reflexivity].
  - split; [intros [img E]; discriminate|intro; nia].
Qed.

Lemma Vec8ToImage_exact (vec : list Z) :
  Z.of_nat (length vec) = h * wd ->
  Vec8ToImage be hdr f vec w
  = (Ret (raster_image be hdr TYPE_8UC1 h wd 1
            (flat_map (uint8_bytes be) vec)), w).
Proof.
  intro Hl. destruct dims as [[Hh Hh'] [Hw Hw']]. unfold INT_MAX in *.
  fold h in Hh, Hh'. fold wd in Hw, Hw'.
  unfold Vec8ToImage. rewrite raster_copy by assumption. fold h wd.
  assert (Hn : length (flat_map (uint8_bytes be) vec)
               = (Z.to_nat (h * wd) * sizeof_uint8_t)%nat).
  { rewrite (flat_map_constant_length _ 1%nat (uint8_bytes_length be)).
    unfold sizeof_uint8_t. lia. }
  rewrite memcpy_whole by (now rewrite fresh_length).
  rewrite toImageMsg_exact; try assumption; try reflexivity;
    unfold sizeof_uint8_t; lia.
Qed.

End Rasters.

(** ** The ten routines on a well-formed frame *)

Lemma runs_announce (c : Channel) (m : Message) (w : World) :
  runs (bind (emit (Entered c)) (fun _ => publish_on c m)) w (Ret tt)
    (announce c m).
Proof.
  apply (runs_bind _ _ _ tt _ [Entered c] [Published c m]); apply runs_emit.
Qed.

Lemma runs_announce_image (c : Channel) (make : M Image.t) (img : Image.t)
    (w : World) :
  (forall w', make w' = (Ret img, w')) ->
  runs (bind (emit (Entered c))
          (fun _ => bind make (fun image => publish_on c (MsgImage image))))
    w (Ret tt) (announce c (MsgImage img)).
Proof.
  intro H.
  apply (runs_bind _ _ _ tt _ [Entered c] [Published c (MsgImage img)]);
    [apply runs_emit|].
  apply (runs_bind _ _ _ img _ [] [Published c (MsgImage img)]);
    [|apply runs_emit].
  unfold runs. now rewrite H, record_nil.
Qed.

(** With one point per pixel and a byte count that fits 32 bits the
    zeroed buffer takes every point and nothing of it is left over. *)
Lemma packing_succeeds (be : bool) (f : SafeVisionaryData.t) :
  lengths_match f = true ->
  Z.of_nat (length (SafeVisionaryData.getIntensityMap f))
  = SafeVisionaryData.getHeight f * SafeVisionaryData.getWidth f ->
  cloud_fits f ->
  pack_points be 14 0 12 0 (points_of f) (SafeVisionaryData.getIntensityMap f)
    (repeat 0 (Z.to_nat (cloud_size f)))
  = Ret (packed be (points_of f) (SafeVisionaryData.getIntensityMap f)).
Proof.
  intros Hm Hi Hf. apply lengths_match_true in Hm.
  rewrite pack_into_zeros by assumption.
  rewrite cloud_size_exact by (assumption || lia).
  destruct (Nat.leb_spec (14 * length (points_of f))
              (Z.to_nat (SafeVisionaryData.getHeight f
                         * SafeVisionaryData.getWidth f * 14))) as [H|H];
    [|lia].
  rewrite skipn_all2 by (rewrite repeat_length; lia).
  now rewrite app_nil_r.
Qed.

Section WellFormed.

Variable be : bool.
Variable hdr : Header.t.
Variable f : SafeVisionaryData.t.
Hypothesis wf : well_formed f.
Hypothesis fits : lengths_match f = true -> cloud_fits f.

Lemma routine_runs (c : Channel) (body : M unit) (w : World) :
  In (c, body)
    [(camera_info_pub_, publishCameraInfo hdr f);
     (pointcloud_pub_, publishPointCloud be hdr f);
     (depth_pub_, publishDepthImage be hdr f);
     (intensity_pub_, publishIntensityImage be hdr f);
     (state_pub_, publishStateMap be hdr f);
     (imu_pub_, publishIMUData hdr f);
     (device_status_pub_, publishDeviceStatus hdr f);
     (io_pub_, publishIOs hdr f);
     (roi_pub_, publishROI hdr f);
     (field_pub_, publishFieldInformation hdr f)] ->
  runs body w (Ret tt) (routine_trace be hdr f c).
Proof.
  destruct wf as [Hd (Hdist & Hint & Hst)].
  simpl. intros H.
  repeat (destruct H as [H|H]; [injection H as <- <-|]); try contradiction;
    try apply runs_announce.
  - (* point cloud *)
    pose proof fits as Hfits.
    unfold routine_trace. destruct (lengths_match f) eqn:Hm.
    + apply publishPointCloud_packs; [assumption|].
      apply packing_succeeds; auto.
    + now apply publishPointCloud_mismatch.
  - apply runs_announce_image. intro w'. now apply Vec16ToImage_exact.
  - apply runs_announce_image. intro w'. now apply Vec16ToImage_exact.
  - apply runs_announce_image. intro w'. now apply Vec8ToImage_exact.
Qed.

Lemma runs_if_subscribed (s : Channel -> Z) (c : Channel) (body : M unit)
    (evs : list Event) (w : World) :
  getNumSubscribers w = s ->
  (forall w', runs body w' (Ret tt) evs) ->
  runs (if_subscribed c body) w (Ret tt) (served s c evs).
Proof.
  intros <- H. unfold if_subscribed, served, runs, bind, numSubscribers.
  destruct (0 <? getNumSubscribers w c).
  - apply H.
  - unfold ret. now rewrite record_nil.
Qed.

Lemma publish_runs (w : World) :
  runs (publish be hdr f) w (Ret tt)
    (frame_trace be hdr f (getNumSubscribers w)).
Proof.
  unfold publish, frame_trace, all_channels. cbn [flat_map].
  rewrite app_nil_r.
  repeat (eapply (runs_bind _ _ _ tt);
          [apply (runs_if_subscribed (getNumSubscribers w));
           [reflexivity|intro w'; apply routine_runs; simpl; tauto]|]).
  apply (runs_if_subscribed (getNumSubscribers w));
    [reflexivity|intro w'; apply routine_runs; simpl; tauto].
Qed.

End WellFormed.

(** ** Reading a trace *)

Lemma entered_app (a b : list Event) : entered (a ++ b) = entered a ++ entered b.
Proof.
  induction a as [|e a IH]; [reflexivity|].
  destruct e; simpl; now rewrite ?IH.
Qed.

Lemma published_app (a b : list Event) :
  published (a ++ b) = published a ++ published b.
Proof.
  induction a as [|e a IH]; [reflexivity|].
  destruct e; simpl; now rewrite ?IH.
Qed.

Lemma In_entered (c : Channel) (evs : list Event) :
  In (Entered c) evs <-> In c (entered evs).
Proof.
  induction evs as [|e evs IH]; [reflexivity|].
  destruct e; simpl; rewrite <- ?IH;
    (split; [intros [H|H]; [try discriminate|]|]); try tauto.
  - injection H as ->. now left.
  - intros [->|H]; tauto.
Qed.

Lemma In_published (c : Channel) (m : Message) (evs : list Event) :
  In (Published c m) evs <-> In (c, m) (published evs).
Proof.
  induction evs as [|e evs IH]; [reflexivity|].
  destruct e; simpl; rewrite <- ?IH;
    (split; [intros [H|H]; [try discriminate|]|]); try tauto.
  - injection H as -> ->. now left.
  - intros [H|H]; [injection H as -> ->|]; tauto.
Qed.

Lemma published_channel (c : Channel) (evs : list Event) :
  (exists m, In (Published c m) evs) <-> In c (map fst (published evs)).
Proof.
  rewrite in_map_iff. split.
  - intros [m H]. exists (c, m). split; [reflexivity|now apply In_published].
  - intros [[c' m] [E H]]. simpl in E. subst c'.
    exists m. now apply In_published.
Qed.

Lemma filter_as_flat_map {A : Type} (p : A -> bool) (l : list A) :
  filter p l = flat_map (fun a => if p a then [a] else []) l.
Proof.
  induction l as [|a l IH]; [reflexivity|].
  simpl. rewrite IH. now destruct (p a).
Qed.

Lemma all_channels_complete (c : Channel) : In c all_channels.
Proof. destruct c; simpl; tauto. Qed.

Section FrameTrace.

Variable be : bool.
Variable hdr : Header.t.
Variable f : SafeVisionaryData.t.
Variable s : Channel -> Z.

Lemma entered_routine (c : Channel) : entered (routine_trace be hdr f c) = [c].
Proof.
  destruct c; try reflexivity.
  unfold routine_trace. rewrite entered_app.
  now destruct (lengths_match f).
Qed.

Lemma published_routine (c : Channel) :
  map fst (published (routine_trace be hdr f c))
  = if delivers f c then [c] else [].
Proof.
  destruct c; try reflexivity.
  unfold routine_trace, delivers. rewrite published_app.
  now destruct (lengths_match f).
Qed.

Lemma entered_frame_trace :
  entered (frame_trace be hdr f s) = filter (fun c => 0 <? s c) all_channels.
Proof.
  rewrite filter_as_flat_map. unfold frame_trace.
  induction all_channels as [|c l IH]; [reflexivity|].
  cbn [flat_map]. rewrite entered_app, IH. f_equal.
  unfold served. destruct (0 <? s c); [apply entered_routine|reflexivity].
Qed.

Lemma published_frame_trace :
  map fst (published (frame_trace be hdr f s))
  = filter (fun c => (0 <? s c) && delivers f c) all_channels.
Proof.
  rewrite filter_as_flat_map. unfold frame_trace.
  induction all_channels as [|c l IH]; [reflexivity|].
  cbn [flat_map]. rewrite published_app, map_app, IH. f_equal.
  unfold served. destruct (0 <? s c); [apply published_routine|reflexivity].
Qed.

Lemma carries_routine (c : Channel) :
  Forall (carries hdr) (routine_trace be hdr f c).
Proof.
  destruct c; unfold routine_trace, announce, cloud_prelude;
    try (destruct (lengths_match f)); repeat constructor.
Qed.

Lemma routine_trace_channel (c : Channel) (e : Event) :
  In e (routine_trace be hdr f c) -> channel_of e = c.
Proof.
  destruct c; unfold routine_trace, announce, cloud_prelude;
    try (destruct (lengths_match f)); simpl;
    intuition (subst; reflexivity).
Qed.

Lemma frame_trace_subscribed (e : Event) :
  In e (frame_trace be hdr f s) -> 0 < s (channel_of e).
Proof.
  unfold frame_trace. rewrite in_flat_map. intros (c & _ & H).
  unfold served in H. destruct (Z.ltb_spec 0 (s c)); [|contradiction].
  now rewrite (routine_trace_channel c e H).
Qed.

End FrameTrace.

(** ** What every run keeps *)

Section Keeps.

Variable P : Event -> Prop.

Lemma keeps_ret {A : Type} (Q : A -> Prop) (a : A) : Q a -> keeps P Q (ret a).
Proof.
  intros H w. exists []. simpl. rewrite record_nil.
  repeat split; [constructor|]. now intros a' [= <-].
Qed.

Lemma keeps_lift {A : Type} (o : Outcome A) : keeps P (fun a => o = Ret a) (lift o).
Proof.
  intros w. exists []. simpl. rewrite record_nil.
  repeat split; [constructor|]. auto.
Qed.

Lemma keeps_throw {A : Type} (Q : A -> Prop) (why : Failure) :
  keeps P Q (throw why).
Proof.
  intros w. exists []. simpl. rewrite record_nil.
  repeat split; [constructor|]. discriminate.
Qed.

Lemma keeps_emit (e : Event) : P e -> keeps P (fun _ => True) (emit e).
Proof.
  intros H w. exists [e]. simpl. repeat split. now constructor.
Qed.

Lemma keeps_numSubscribers (c : Channel) :
  keeps P (fun _ => True) (numSubscribers c).
Proof.
  intros w. exists []. simpl. rewrite record_nil.
  repeat split. constructor.
Qed.

Lemma keeps_fresh (n : nat) : keeps P (fun _ => True) (fresh n).
Proof.
  intros w. exists []. simpl. rewrite record_nil.
  repeat split. constructor.
Qed.

Lemma keeps_bind {A B : Type} (Q : A -> Prop) (Q' : B -> Prop) (m : M A)
    (k : A -> M B) :
  keeps P Q m -> (forall a, Q a -> keeps P Q' (k a)) -> keeps P Q' (bind m k).
Proof.
  intros Hm Hk w. destruct (Hm w) as (out & Hs & Hf & Hq).
  unfold bind. destruct (m w) as [[a|why] w'] eqn:E; simpl in Hs; subst w'.
  - destruct (Hk a (Hq a eq_refl) (record out w)) as (out' & Hs' & Hf' & Hq').
    exists (out ++ out'). rewrite Hs', record_record.
    repeat split; [now apply Forall_app|assumption].
  - exists out. simpl. repeat split; [assumption|discriminate].
Qed.

Lemma keeps_weaken {A : Type} (Q Q' : A -> Prop) (m : M A) :
  keeps P Q m -> (forall a, Q a -> Q' a) -> keeps P Q' m.
Proof.
  intros Hm Hq w. destruct (Hm w) as (out & Hs & Hf & H).
  exists out. repeat split; auto.
Qed.

Lemma keeps_if {A : Type} (Q : A -> Prop) (b : bool) (m1 m2 : M A) :
  keeps P Q m1 -> keeps P Q m2 -> keeps P Q (if b then m1 else m2).
Proof. now destruct b. Qed.

End Keeps.

Create HintDb keeps.
#[export] Hint Resolve keeps_ret keeps_throw keeps_emit keeps_numSubscribers
  keeps_fresh keeps_if : keeps.

(** ** Every published message carries the header of the call *)

Section Header.

Variable be : bool.
Variable hdr : Header.t.
Variable f : SafeVisionaryData.t.

Let stamped {A : Type} (m : M A) : Prop :=
  keeps (carries hdr) (fun _ => True) m.

Lemma stamped_announce (c : Channel) (m : Message) :
  header_of m = hdr ->
  stamped (bind (emit (Entered c)) (fun _ => publish_on c m)).
Proof.
  intro H. apply (keeps_bind _ (fun _ => True)).
  - now apply keeps_emit.
  - intros _ _. now apply keeps_emit.
Qed.

Lemma stamped_image (enc : string) (elem : nat) (src : list byte) :
  keeps (carries hdr) (fun image => Image.header image = hdr)
    (bind (Mat_create (SafeVisionaryData.getHeight f)
             (SafeVisionaryData.getWidth f) elem)
       (fun image =>
          bind (lift (memcpy (Mat.data image) 0 src))
            (fun data =>
               ret (toImageMsg be hdr enc
                      {| Mat.rows := Mat.rows image;
                         Mat.cols := Mat.cols image;
                         Mat.elemSize := Mat.elemSize image;
                         Mat.data := data |})))).
Proof.
  apply (keeps_bind _ (fun _ => True)).
  - unfold Mat_create. apply keeps_if; [|auto with keeps].
    apply (keeps_bind _ (fun _ => True)); auto with keeps.
  - intros image _. apply (keeps_bind _ (fun _ => True)).
    + eapply keeps_weaken; [apply keeps_lift|auto].
    + intros data _. now apply keeps_ret.
Qed.

Lemma stamped_image_routine (c : Channel) (make : M Image.t) :
  keeps (carries hdr) (fun image => Image.header image = hdr) make ->
  stamped (bind (emit (Entered c))
             (fun _ => bind make (fun image => publish_on c (MsgImage image)))).
Proof.
  intro H. apply (keeps_bind _ (fun _ => True)).
  - now apply keeps_emit.
  - intros _ _. eapply keeps_bind; [exact H|].
    intros image Hi. now apply keeps_emit.
Qed.

Lemma stamped_publishPointCloud : stamped (publishPointCloud be hdr f).
Proof.
  rewrite publishPointCloud_steps.
  repeat (apply (keeps_bind _ (fun _ => True));
          [now apply keeps_emit|intros _ _]).
  apply keeps_if; [now apply keeps_emit|].
  apply (keeps_bind _ (fun _ => True)).
  - eapply keeps_weaken; [apply keeps_lift|auto].
  - intros data _. now apply keeps_emit.
Qed.

Lemma stamped_if_subscribed (c : Channel) (body : M unit) :
  stamped body -> stamped (if_subscribed c body).
Proof.
  intro H. apply (keeps_bind _ (fun _ => True)).
  - apply keeps_numSubscribers.
  - intros n _. apply keeps_if; [assumption|now apply keeps_ret].
Qed.

Lemma stamped_publish : stamped (publish be hdr f).
Proof.
  unfold publish.
  repeat (apply (keeps_bind _ (fun _ => True)); [|intros _ _]);
    apply stamped_if_subscribed;
    first [ now apply stamped_announce
          | apply stamped_publishPointCloud
          | apply stamped_image_routine, stamped_image ].
Qed.

End Header.

(** ** Runs that depend on the subscribers only *)

Lemma agree_refl (w : World) : agree w w.
Proof. now intro c. Qed.

Lemma agree_record (w1 w2 : World) (e1 e2 : list Event) :
  agree w1 w2 -> agree (record e1 w1) (record e2 w2).
Proof. intros H c. apply H. Qed.

Lemma steady_ret {A : Type} (a : A) : steady (ret a).
Proof. intros w1 w2 _. exists (Ret a), []. split; apply runs_ret. Qed.

Lemma steady_emit (e : Event) : steady (emit e).
Proof. intros w1 w2 _. exists (Ret tt), [e]. split; apply runs_emit. Qed.

Lemma steady_lift {A : Type} (o : Outcome A) : steady (lift o).
Proof. intros w1 w2 _. exists o, []. split; apply runs_lift. Qed.

Lemma steady_bind {A B : Type} (m : M A) (k : A -> M B) :
  steady m -> (forall a, steady (k a)) -> steady (bind m k).
Proof.
  intros Hm Hk w1 w2 Ha.
  destruct (Hm w1 w2 Ha) as ([a|why] & out & H1 & H2).
  - destruct (Hk a (record out w1) (record out w2)) as (r & out' & H1' & H2');
      [now apply agree_record|].
    exists r, (out ++ out'). split; eapply runs_bind; eassumption.
  - exists (Abort why), out. split; now apply runs_bind_abort.
Qed.

Lemma steady_if_subscribed (c : Channel) (body : M unit) :
  steady body -> steady (if_subscribed c body).
Proof.
  intros Hb w1 w2 Ha. unfold if_subscribed, runs, bind, numSubscribers.
  rewrite <- (Ha c). destruct (0 <? getNumSubscribers w1 c).
  - now apply Hb.
  - exists (Ret tt), []. split; apply runs_ret.
Qed.

Lemma steady_runs {A : Type} (m : M A) (r : Outcome A) (out : list Event) :
  (forall w, runs m w r out) -> steady m.
Proof. intros H w1 w2 _. exists r, out. split; apply H. Qed.

Lemma steady_publishPointCloud (be : bool) (hdr : Header.t)
    (f : SafeVisionaryData.t) :
  steady (publishPointCloud be hdr f).
Proof.
  rewrite publishPointCloud_steps.
  repeat (apply steady_bind; [apply steady_emit|intros _]).
  destruct (negb (lengths_match f)); [apply steady_emit|].
  apply steady_bind; [apply steady_lift|intro data; apply steady_emit].
Qed.

Lemma steady_publish (be : bool) (hdr : Header.t) (f : SafeVisionaryData.t) :
  well_formed f -> steady (publish be hdr f).
Proof.
  intros [Hd (Hdist & Hint & Hst)]. unfold publish.
  repeat (apply steady_bind; [|intros _]); apply steady_if_subscribed;
    first [ apply steady_publishPointCloud
          | eapply steady_runs; intro w; apply runs_announce
          | eapply steady_runs; intro w; apply runs_announce_image;
            intro w';
            first [ now apply Vec16ToImage_exact
                  | now apply Vec8ToImage_exact ] ].
Qed.

(** ** The point buffer *)

(** X12.  Whenever the point vector and the intensity map both
    hold [height * width] entries and [height * width * 14] is below
    [2 ^ 32], [publishPointCloud] publishes a cloud whose data has
    exactly [height * width * 14] bytes, whose point step is 14 and
    whose fields x, y, z, intensity sit at offsets 0, 4, 8, 12; for
    every index [i] the twelve bytes from [i * 14] are the object
    representation of point [i] and the two bytes from [i * 14 + 12]
    that of intensity sample [i]. *)
Theorem pointcloud_layout (be : bool) (hdr : Header.t)
    (f : SafeVisionaryData.t) (w : World) :
  Z.of_nat (length (points_of f))
  = SafeVisionaryData.getHeight f * SafeVisionaryData.getWidth f ->
  Z.of_nat (length (SafeVisionaryData.getIntensityMap f))
  = SafeVisionaryData.getHeight f * SafeVisionaryData.getWidth f ->
  cloud_fits f ->
  exists cloud,
    publishPointCloud be hdr f w
    = (Ret tt,
       record (cloud_prelude f
               ++ [Published pointcloud_pub_ (MsgPointCloud2 cloud)]) w) /\
    Z.of_nat (length (PointCloud2.data cloud))
    = SafeVisionaryData.getHeight f * SafeVisionaryData.getWidth f * 14 /\
    PointCloud2.point_step cloud = 14 /\
    map (fun p => (PointField.name p, PointField.offset p))
      (PointCloud2.fields cloud)
    = [("x"%string, 0); ("y"%string, 4); ("z"%string, 8);
       ("intensity"%string, 12)] /\
    forall (i : nat) (p : PointXYZ.t) (v : Z),
      nth_error (points_of f) i = Some p ->
      nth_error (SafeVisionaryData.getIntensityMap f) i = Some v ->
      firstn 12 (skipn (i * 14) (PointCloud2.data cloud))
      = PointXYZ_bytes be p /\
      firstn 2 (skipn (i * 14 + 12) (PointCloud2.data cloud))
      = uint16_bytes be v.
Proof.
  intros Hp Hi Hf.
  assert (Hl : length (SafeVisionaryData.getIntensityMap f)
               = length (points_of f)) by lia.
  assert (Hm : lengths_match f = true) by now apply lengths_match_true.
  exists (cloud_msg hdr f
            (packed be (points_of f) (SafeVisionaryData.getIntensityMap f))).
  split; [|split; [|split; [|split]]].
  - apply publishPointCloud_packs; [assumption|].
    now apply packing_succeeds.
  - cbn [cloud_msg PointCloud2.data]. rewrite packed_length by assumption. lia.
  - reflexivity.
  - reflexivity.
  - intros i p v Ep Ev. cbn [cloud_msg PointCloud2.data].
    assert (Hlt : (i < length (points_of f))%nat)
      by (apply nth_error_Some; congruence).
    rewrite (Nat.mul_comm i 14). split.
    + rewrite (packed_point be p) by assumption.
      f_equal. now apply nth_error_nth.
    + rewrite (packed_intensity be v) by assumption.
      f_equal. now apply nth_error_nth.
Qed.

Lemma pointcloud_layout_witness :
  cloud_fits Sample.two_pixels /\
  exists cloud,
    publishPointCloud false Sample.header Sample.two_pixels
      (Sample.world Sample.everybody 170)
    = (Ret tt,
       record (cloud_prelude Sample.two_pixels
               ++ [Published pointcloud_pub_ (MsgPointCloud2 cloud)])
         (Sample.world Sample.everybody 170)) /\
    Z.of_nat (length (PointCloud2.data cloud)) = 28.
Proof.
  assert (Hf : cloud_fits Sample.two_pixels) by (vm_compute; reflexivity).
  split; [exact Hf|].
  destruct (pointcloud_layout false Sample.header Sample.two_pixels
              (Sample.world Sample.everybody 170) eq_refl eq_refl Hf)
    as (cloud & Hrun & Hlen & _).
  exists cloud. split; [exact Hrun|exact Hlen].
Defined.

(** The count [65536 * 65536] as a successor, without computing it. *)
Lemma huge_count_positive : exists n, Sample.huge_count = S n.
Proof.
  exists (Z.to_nat (Sample.side * Sample.side - 1)).
  unfold Sample.huge_count.
  rewrite <- Z2Nat.inj_succ by (unfold Sample.side; lia).
  f_equal; unfold Sample.side; lia.
Qed.

Lemma huge_count_value : Z.of_nat Sample.huge_count = 4294967296.
Proof. unfold Sample.huge_count. now rewrite Z2Nat.id. Qed.

(** C1, where the code fails.  A frame of 65536 by 65536 pixels whose
    point vector and intensity map both hold [65536 * 65536] entries:
    the 32-bit product [height * row_step] wraps to 0, so the buffer is
    resized to 0 bytes instead of [65536 * 65536 * 14] and the first
    copy of the unguarded loop writes outside it. *)
Lemma pointcloud_size_wraps :
  Z.of_nat (length (points_of Sample.huge))
  = SafeVisionaryData.getHeight Sample.huge
    * SafeVisionaryData.getWidth Sample.huge /\
  Z.of_nat (length (SafeVisionaryData.getIntensityMap Sample.huge))
  = SafeVisionaryData.getHeight Sample.huge
    * SafeVisionaryData.getWidth Sample.huge /\
  SafeVisionaryData.getHeight Sample.huge
  * SafeVisionaryData.getWidth Sample.huge * 14 = 60129542144 /\
  cloud_size Sample.huge = 0 /\
  publishPointCloud false Sample.header Sample.huge
    (Sample.world Sample.everybody 0)
  = (Abort OutOfBounds,
     record (cloud_prelude Sample.huge) (Sample.world Sample.everybody 0)).
Proof.
  assert (Hp : points_of Sample.huge
               = repeat (Sample.point 0) Sample.huge_count) by reflexivity.
  assert (Hi : SafeVisionaryData.getIntensityMap Sample.huge
               = repeat 0 Sample.huge_count) by reflexivity.
  assert (Hs : cloud_size Sample.huge = 0).
  { rewrite cloud_size_wraps. reflexivity. }
  rewrite Hp, Hi, !repeat_length, huge_count_value.
  split; [reflexivity|]. split; [reflexivity|]. split; [reflexivity|].
  split; [exact Hs|].
  apply publishPointCloud_aborts.
  - apply lengths_match_true. now rewrite Hp, Hi, !repeat_length.
  - rewrite pack_into_zeros by now rewrite Hp, Hi, !repeat_length.
    rewrite Hs, Hp, repeat_length.
    destruct huge_count_positive as [n ->]. reflexivity.
Qed.

(** The loop on any buffer: every copy stays inside exactly when the
    buffer has fourteen bytes for each point. *)
Lemma pack_points_inside_iff (be : bool) (pts : list PointXYZ.t)
    (ints : list Z) (data : list byte) :
  length ints = length pts ->
  (exists out, pack_points be 14 0 12 0 pts ints data = Ret out)
  <-> (14 * length pts <= length data)%nat.
Proof.
  intro Hl. split.
  - intros [out E].
    destruct (Nat.le_gt_cases (14 * length pts) (length data)) as [H|H];
      [assumption|].
    pose proof (pack_points_overflows be pts ints [] data 0 eq_refl Hl H)
      as E'.
    cbn [app] in E'. congruence.
  - intro H. eexists.
    exact (pack_points_fits be pts ints [] data 0 eq_refl Hl H).
Qed.

(** X13.  Let the guard of [publishPointCloud] pass (as many
    intensities as points), let height and width be non-negative and
    [height * width * 14] below [2 ^ 32], so that the buffer really has
    [height * width * 14] bytes.  Then the packing loop writes inside
    the buffer exactly when there are at most [height * width] points,
    and leaves it otherwise: no other guard stands in the way.  In
    particular with exactly [height * width] points every write is
    inside.  On any buffer the loop stays inside exactly when fourteen
    bytes per point fit. *)
Theorem packing_bounds (be : bool) (hdr : Header.t)
    (f : SafeVisionaryData.t) (w : World) :
  0 <= SafeVisionaryData.getHeight f ->
  0 <= SafeVisionaryData.getWidth f ->
  cloud_fits f ->
  length (SafeVisionaryData.getIntensityMap f) = length (points_of f) ->
  (fst (publishPointCloud be hdr f w) = Ret tt
   <-> Z.of_nat (length (points_of f))
       <= SafeVisionaryData.getHeight f * SafeVisionaryData.getWidth f) /\
  (fst (publishPointCloud be hdr f w) = Abort OutOfBounds
   <-> SafeVisionaryData.getHeight f * SafeVisionaryData.getWidth f
       < Z.of_nat (length (points_of f))) /\
  (Z.of_nat (length (points_of f))
   = SafeVisionaryData.getHeight f * SafeVisionaryData.getWidth f ->
   fst (publishPointCloud be hdr f w) = Ret tt) /\
  (forall data : list byte,
      (exists out,
          pack_points be 14 0 12 0 (points_of f)
            (SafeVisionaryData.getIntensityMap f) data = Ret out)
      <-> (14 * length (points_of f) <= length data)%nat).
Proof.
  intros Hh Hw Hf Hl.
  assert (Hm : lengths_match f = true) by now apply lengths_match_true.
  assert (Hs : cloud_size f
               = SafeVisionaryData.getHeight f
                 * SafeVisionaryData.getWidth f * 14)
    by (apply cloud_size_exact; [nia|assumption]).
  pose proof (pack_into_zeros be (points_of f)
                (SafeVisionaryData.getIntensityMap f)
                (Z.to_nat (cloud_size f)) Hl) as Hpack.
  assert (Hcases :
    (Z.of_nat (length (points_of f))
     <= SafeVisionaryData.getHeight f * SafeVisionaryData.getWidth f
     /\ fst (publishPointCloud be hdr f w) = Ret tt)
    \/ (SafeVisionaryData.getHeight f * SafeVisionaryData.getWidth f
        < Z.of_nat (length (points_of f))
        /\ fst (publishPointCloud be hdr f w) = Abort OutOfBounds)).
  { destruct (Nat.leb_spec (14 * length (points_of f))
                (Z.to_nat (cloud_size f))) as [H|H].
    - left. split; [lia|].
      now rewrite (publishPointCloud_packs be hdr f w _ Hm Hpack).
    - right. split; [lia|].
      now rewrite (publishPointCloud_aborts be hdr f w _ Hm Hpack). }
  split; [|split; [|split]].
  - destruct Hcases as [[H E]|[H E]]; rewrite E;
      split; intro; (assumption || reflexivity || discriminate || lia).
  - destruct Hcases as [[H E]|[H E]]; rewrite E;
      split; intro; (assumption || reflexivity || discriminate || lia).
  - intro Heq. destruct Hcases as [[H E]|[H E]]; [assumption|lia].
  - intro data. now apply pack_points_inside_iff.
Qed.

Lemma packing_bounds_witness :
  cloud_fits Sample.two_pixels /\
  fst (publishPointCloud false Sample.header Sample.two_pixels
         (Sample.world Sample.everybody 170)) = Ret tt.
Proof.
  assert (Hf : cloud_fits Sample.two_pixels) by (vm_compute; reflexivity).
  split; [exact Hf|].
  apply (packing_bounds false Sample.header Sample.two_pixels
           (Sample.world Sample.everybody 170));
    [vm_compute; discriminate|vm_compute; discriminate|exact Hf
    |reflexivity|reflexivity].
Defined.

Lemma wide_count_positive : exists n, Z.to_nat Sample.wide_count = S n.
Proof.
  exists (Z.to_nat (Sample.wide_count - 1)).
  rewrite <- Z2Nat.inj_succ by (unfold Sample.wide_count; lia).
  f_equal; unfold Sample.wide_count; lia.
Qed.

(** C9, where the code fails.  One row of 306783379 pixels with exactly
    that many points and intensities: fourteen bytes per point are ten
    more than [2 ^ 32], the buffer is resized to 10 bytes, and the
    first copy of twelve bytes writes outside it although the point
    count equals [height * width]. *)
Lemma packing_leaves_wrapped_buffer :
  Z.of_nat (length (points_of Sample.wide))
  = SafeVisionaryData.getHeight Sample.wide
    * SafeVisionaryData.getWidth Sample.wide /\
  Z.of_nat (length (SafeVisionaryData.getIntensityMap Sample.wide))
  = SafeVisionaryData.getHeight Sample.wide
    * SafeVisionaryData.getWidth Sample.wide /\
  cloud_size Sample.wide = 10 /\
  publishPointCloud false Sample.header Sample.wide
    (Sample.world Sample.everybody 0)
  = (Abort OutOfBounds,
     record (cloud_prelude Sample.wide) (Sample.world Sample.everybody 0)).
Proof.
  assert (Hp : points_of Sample.wide
               = repeat (Sample.point 0) (Z.to_nat Sample.wide_count))
    by reflexivity.
  assert (Hi : SafeVisionaryData.getIntensityMap Sample.wide
               = repeat 0 (Z.to_nat Sample.wide_count)) by reflexivity.
  assert (Hs : cloud_size Sample.wide = 10).
  { rewrite cloud_size_wraps. reflexivity. }
  rewrite Hp, Hi, !repeat_length, Z2Nat.id by (unfold Sample.wide_count; lia).
  split; [reflexivity|]. split; [reflexivity|]. split; [exact Hs|].
  apply publishPointCloud_aborts.
  - apply lengths_match_true. now rewrite Hp, Hi, !repeat_length.
  - rewrite pack_into_zeros by now rewrite Hp, Hi, !repeat_length.
    rewrite Hs, Hp, repeat_length.
    destruct wide_count_positive as [n ->].
    destruct (Nat.leb_spec (14 * S n) (Z.to_nat 10)); [lia|reflexivity].
Qed.

(** ** Order of the steps of the point cloud routine *)

(** C4 (amended).  In every run of [publishPointCloud] the point buffer
    is sized first ([data.resize], from height and width alone), then
    the points are generated and transformed, and only then are the
    lengths compared.  When they differ the buffer has already been
    allocated; the routine logs the mismatch and returns without
    publishing.  When they agree the trace ends with at most one
    publication. *)
Theorem pointcloud_order (be : bool) (hdr : Header.t)
    (f : SafeVisionaryData.t) (w : World) :
  exists (r : Outcome unit) (rest : list Event),
    publishPointCloud be hdr f w
    = (r, record ([Entered pointcloud_pub_; DataResized (cloud_size f);
                   PointsGenerated; PointsTransformed] ++ rest) w) /\
    (lengths_match f = false ->
     r = Ret tt /\ rest = [RosInfo mismatch_text]) /\
    (lengths_match f = true ->
     (exists why, r = Abort why /\ rest = []) \/
     (exists cloud,
         r = Ret tt /\
         rest = [Published pointcloud_pub_ (MsgPointCloud2 cloud)])).
Proof.
  destruct (lengths_match f) eqn:Hm.
  - destruct (pack_points be 14 0 12 0 (points_of f)
                (SafeVisionaryData.getIntensityMap f)
                (repeat 0 (Z.to_nat (cloud_size f)))) as [data|why] eqn:Hp.
    + exists (Ret tt), [Published pointcloud_pub_
                          (MsgPointCloud2 (cloud_msg hdr f data))].
      split; [now apply publishPointCloud_packs|].
      split; [discriminate|]. intros _. right. now eexists.
    + exists (Abort why), [].
      split; [rewrite app_nil_r; now apply publishPointCloud_aborts|].
      split; [discriminate|]. intros _. left. now eexists.
  - exists (Ret tt), [RosInfo mismatch_text].
    split; [now apply publishPointCloud_mismatch|].
    split; [auto|discriminate].
Qed.

(** C4, counterexample.  Two pixels, two intensities, one point: the
    28-byte buffer is allocated before the points are generated and
    although the lengths then turn out to differ. *)
Lemma buffer_allocated_before_check :
  lengths_match Sample.one_point_short = false /\
  publishPointCloud false Sample.header Sample.one_point_short
    (Sample.world Sample.everybody 170)
  = (Ret tt,
     record [Entered pointcloud_pub_; DataResized 28; PointsGenerated;
             PointsTransformed; RosInfo mismatch_text]
       (Sample.world Sample.everybody 170)).
Proof. split; reflexivity. Qed.

(** ** The raster images *)

(** C10 (amended).  [Vec16ToImage] and [Vec8ToImage] copy the whole
    source vector into a raster of [height * width] samples and check
    no length.  With height and width in range the copy stays inside
    the raster exactly when the vector has at most [height * width]
    samples, and leaves it when the vector is longer; when the vector
    has exactly [height * width] samples the image data is the vector's
    bytes and nothing else, whatever the raster memory held before. *)
Theorem raster_copy_bounds (be : bool) (hdr : Header.t)
    (f : SafeVisionaryData.t) (w : World) (vec : list Z) :
  dims_in_range f ->
  ((exists img, Vec16ToImage be hdr f vec w = (Ret img, w))
   <-> Z.of_nat (length vec)
       <= SafeVisionaryData.getHeight f * SafeVisionaryData.getWidth f) /\
  ((exists img, Vec8ToImage be hdr f vec w = (Ret img, w))
   <-> Z.of_nat (length vec)
       <= SafeVisionaryData.getHeight f * SafeVisionaryData.getWidth f) /\
  (SafeVisionaryData.getHeight f * SafeVisionaryData.getWidth f
   < Z.of_nat (length vec) ->
   Vec16ToImage be hdr f vec w = (Abort OutOfBounds, w) /\
   Vec8ToImage be hdr f vec w = (Abort OutOfBounds, w)) /\
  (Z.of_nat (length vec)
   = SafeVisionaryData.getHeight f * SafeVisionaryData.getWidth f ->
   Vec16ToImage be hdr f vec w
   = (Ret (raster_image be hdr TYPE_16UC1 (SafeVisionaryData.getHeight f)
             (SafeVisionaryData.getWidth f) 2
             (flat_map (uint16_bytes be) vec)), w) /\
   Vec8ToImage be hdr f vec w
   = (Ret (raster_image be hdr TYPE_8UC1 (SafeVisionaryData.getHeight f)
             (SafeVisionaryData.getWidth f) 1
             (flat_map (uint8_bytes be) vec)), w)).
Proof.
  intro Hd.
  split; [now apply Vec16ToImage_inside|].
  split; [now apply Vec8ToImage_inside|].
  split.
  - intro Hlong. destruct Hd as [[Hh _] [Hw _]].
    unfold Vec16ToImage, Vec8ToImage. rewrite !raster_copy by assumption.
    rewrite !memcpy_outside; [auto| |];
      rewrite fresh_length;
      [ rewrite (flat_map_constant_length _ 1%nat (uint8_bytes_length be))
      | rewrite (flat_map_constant_length _ 2%nat (uint16_bytes_length be)) ];
      unfold sizeof_uint8_t, sizeof_uint16_t; nia.
  - intro Heq. split;
      [now apply Vec16ToImage_exact|now apply Vec8ToImage_exact].
Qed.

Lemma raster_copy_bounds_witness :
  dims_in_range Sample.two_pixels /\
  Vec16ToImage false Sample.header Sample.two_pixels [258; 3]
    (Sample.world Sample.everybody 170)
  = (Ret (raster_image false Sample.header TYPE_16UC1 1 2 2 [2; 1; 3; 0]),
     Sample.world Sample.everybody 170).
Proof.
  assert (Hd : dims_in_range Sample.two_pixels)
    by (repeat split; vm_compute; discriminate).
  split; [exact Hd|].
  destruct (raster_copy_bounds false Sample.header Sample.two_pixels
              (Sample.world Sample.everybody 170) [258; 3] Hd)
    as (_ & _ & _ & Hexact).
  exact (proj1 (Hexact eq_refl)).
Defined.

(** C10, counterexample.  A raster of two 16-bit samples and a source
    vector of one: the copy stays inside the raster although the
    lengths differ, and the second sample of the image is whatever the
    raster memory held (here the byte 170 twice). *)
Lemma short_vector_stays_inside :
  Z.of_nat (length [5]) = 1 /\
  SafeVisionaryData.getHeight Sample.two_pixels
  * SafeVisionaryData.getWidth Sample.two_pixels = 2 /\
  Vec16ToImage false Sample.header Sample.two_pixels [5]
    (Sample.world Sample.everybody 170)
  = (Ret (raster_image false Sample.header TYPE_16UC1 1 2 2 [5; 0; 170; 170]),
     Sample.world Sample.everybody 170).
Proof. repeat split. Qed.

(** ** The calibration message *)

(** C5.  For a frame whose height and width are in range,
    [publishCameraInfo] publishes one message whose [D] is
    [k1, k2, p1, p2, k3] (five entries), whose [K] holds [fx, cx, fy,
    cy, 1] at positions 0, 2, 4, 5, 8 and 0 elsewhere, and whose height
    and width are those of the frame. *)
Theorem camera_info_layout (hdr : Header.t) (f : SafeVisionaryData.t)
    (w : World) :
  dims_in_range f ->
  exists ci,
    publishCameraInfo hdr f w
    = (Ret tt,
       record [Entered camera_info_pub_;
               Published camera_info_pub_ (MsgCameraInfo ci)] w) /\
    length (CameraInfo.D ci) = 5%nat /\
    CameraInfo.D ci
    = (let p := SafeVisionaryData.getCameraParameters f in
       [CameraParameters.k1 p; CameraParameters.k2 p; CameraParameters.p1 p;
        CameraParameters.p2 p; CameraParameters.k3 p]) /\
    CameraInfo.K ci
    = (let p := SafeVisionaryData.getCameraParameters f in
       [CameraParameters.fx p; 0%float; CameraParameters.cx p;
        0%float; CameraParameters.fy p; CameraParameters.cy p;
        0%float; 0%float; 1%float]) /\
    CameraInfo.height ci = SafeVisionaryData.getHeight f /\
    CameraInfo.width ci = SafeVisionaryData.getWidth f.
Proof.
  intros [[Hh Hh'] [Hw Hw']]. unfold INT_MAX in *.
  exists (camera_info hdr f).
  split; [apply runs_announce|].
  repeat split; cbn [camera_info CameraInfo.height CameraInfo.width];
    apply uint32_small; lia.
Qed.

Lemma camera_info_layout_witness :
  dims_in_range Sample.two_pixels /\
  exists ci,
    publishCameraInfo Sample.header Sample.two_pixels
      (Sample.world Sample.everybody 170)
    = (Ret tt,
       record [Entered camera_info_pub_;
               Published camera_info_pub_ (MsgCameraInfo ci)]
         (Sample.world Sample.everybody 170)) /\
    CameraInfo.D ci = [0.5; 0.25; 0.125; 0.75; 2]%float /\
    CameraInfo.K ci = [1.5; 0; 3.5; 0; 2.5; 4.5; 0; 0; 1]%float /\
    CameraInfo.height ci = 1 /\ CameraInfo.width ci = 2.
Proof.
  assert (Hd : dims_in_range Sample.two_pixels)
    by (repeat split; vm_compute; discriminate).
  split; [exact Hd|].
  destruct (camera_info_layout Sample.header Sample.two_pixels
              (Sample.world Sample.everybody 170) Hd)
    as (ci & Hrun & _ & HD & HK & Hh & Hw).
  exists ci. repeat split; assumption.
Defined.

(** ** Regions of interest and field evaluations *)

Lemma push_back_loop {A B : Type} (g : A -> B) (l : list A) :
  forall acc, fold_left (fun v a => push_back v (g a)) l acc = acc ++ map g l.
Proof.
  induction l as [|a l IH]; intro acc; simpl.
  - now rewrite app_nil_r.
  - rewrite IH. unfold push_back. now rewrite <- app_assoc.
Qed.

Lemma roi_msg_copies (r : RoiData.t) : roi_copied r (roi_msg r).
Proof. repeat split. Qed.

Lemma field_msg_copies (r : FieldInformationData.t) :
  field_copied r (field_msg r).
Proof. repeat split. Qed.

(** C6.  [publishROI] and [publishFieldInformation] each publish one
    message whose list is as long as the frame's list, and entry [i]
    of the message is the field-by-field copy of entry [i] of the
    frame. *)
Theorem roi_and_field_lists (hdr : Header.t) (f : SafeVisionaryData.t)
    (w : World) :
  exists rmsg fmsg,
    publishROI hdr f w
    = (Ret tt,
       record [Entered roi_pub_; Published roi_pub_ (MsgROIArray rmsg)] w) /\
    publishFieldInformation hdr f w
    = (Ret tt,
       record [Entered field_pub_;
               Published field_pub_ (MsgFieldInformationArray fmsg)] w) /\
    length (ROIArray.rois rmsg) = length (SafeVisionaryData.getRoiData f) /\
    length (FieldInformationArray.fields fmsg)
    = length (SafeVisionaryData.getFieldInformationData f) /\
    (forall i r,
        nth_error (SafeVisionaryData.getRoiData f) i = Some r ->
        exists m, nth_error (ROIArray.rois rmsg) i = Some m /\ roi_copied r m) /\
    (forall i r,
        nth_error (SafeVisionaryData.getFieldInformationData f) i = Some r ->
        exists m,
          nth_error (FieldInformationArray.fields fmsg) i = Some m /\
          field_copied r m).
Proof.
  exists (roi_array_msg hdr f), (field_array_msg hdr f).
  split; [apply runs_announce|]. split; [apply runs_announce|].
  unfold roi_array_msg, field_array_msg.
  cbn [ROIArray.rois FieldInformationArray.fields].
  rewrite !push_back_loop. cbn [app].
  rewrite !length_map. repeat split.
  - intros i r E. exists (roi_msg r).
    split; [now apply map_nth_error|apply roi_msg_copies].
  - intros i r E. exists (field_msg r).
    split; [now apply map_nth_error|apply field_msg_copies].
Qed.

(** ** The demand gate *)

(** C2 (amended).  For a frame whose maps cover the pixel grid and whose
    point buffer size fits 32 bits, [publish] returns and its trace is
    the trace of the routines of the subscribed channels, one after the
    other in the order of the source.  So the transcode routine of a
    channel is entered exactly when that channel has a subscriber, and
    every event of the trace belongs to a channel with a subscriber: a
    channel without one does no work and publishes nothing.  Each of
    the nine channels other than the point cloud publishes exactly when
    it has a subscriber; the point cloud channel publishes exactly when
    it has a subscriber and the point vector is as long as the
    intensity map. *)
Theorem demand_gate (be : bool) (hdr : Header.t) (f : SafeVisionaryData.t)
    (w : World) :
  well_formed f ->
  cloud_fits f ->
  exists out,
    publish be hdr f w = (Ret tt, record out w) /\
    out = frame_trace be hdr f (getNumSubscribers w) /\
    entered out = filter (subscribed w) all_channels /\
    map fst (published out)
    = filter (fun c => subscribed w c && delivers f c) all_channels /\
    (forall c, In (Entered c) out <-> 0 < getNumSubscribers w c) /\
    (forall e, In e out -> 0 < getNumSubscribers w (channel_of e)) /\
    (forall c,
        c <> pointcloud_pub_ ->
        ((exists m, In (Published c m) out) <-> 0 < getNumSubscribers w c)) /\
    ((exists m, In (Published pointcloud_pub_ m) out)
     <-> 0 < getNumSubscribers w pointcloud_pub_ /\
         length (SafeVisionaryData.getIntensityMap f) = length (points_of f)).
Proof.
  intros Hwf Hfits.
  exists (frame_trace be hdr f (getNumSubscribers w)).
  assert (Hp : forall c,
             (exists m,
                 In (Published c m) (frame_trace be hdr f (getNumSubscribers w)))
             <-> 0 < getNumSubscribers w c /\ delivers f c = true).
  { intro c.
    rewrite published_channel, published_frame_trace, filter_In,
      andb_true_iff, Z.ltb_lt.
    pose proof (all_channels_complete c). tauto. }
  split; [now apply publish_runs|].
  split; [reflexivity|].
  split; [apply entered_frame_trace|].
  split; [apply published_frame_trace|].
  split; [|split; [|split]].
  - intro c. rewrite In_entered, entered_frame_trace, filter_In, Z.ltb_lt.
    pose proof (all_channels_complete c). tauto.
  - apply frame_trace_subscribed.
  - intros c Hc. rewrite Hp.
    destruct c; simpl; (tauto || congruence).
  - rewrite Hp. simpl. now rewrite lengths_match_true.
Qed.

Lemma demand_gate_witness :
  well_formed Sample.two_pixels /\ cloud_fits Sample.two_pixels /\
  exists out,
    publish false Sample.header Sample.two_pixels (Sample.world Sample.imu_and_roi 170)
    = (Ret tt, record out (Sample.world Sample.imu_and_roi 170)) /\
    entered out = [imu_pub_; roi_pub_] /\
    map fst (published out) = [imu_pub_; roi_pub_].
Proof.
  assert (Hwf : well_formed Sample.two_pixels)
    by (repeat split; vm_compute; (discriminate || reflexivity)).
  assert (Hf : cloud_fits Sample.two_pixels) by (vm_compute; reflexivity).
  split; [exact Hwf|]. split; [exact Hf|].
  destruct (demand_gate false Sample.header Sample.two_pixels
              (Sample.world Sample.imu_and_roi 170) Hwf Hf)
    as (out & Hrun & _ & He & Hp & _).
  exists out. repeat split; assumption.
Defined.

(** C2, counterexample.  Every channel has a subscriber and the frame
    yields one point for two intensities: the point cloud routine is
    entered like the other nine, but only the other nine publish. *)
Lemma pointcloud_entered_without_publishing :
  getNumSubscribers (Sample.world Sample.everybody 170) pointcloud_pub_ = 1 /\
  fst (publish false Sample.header Sample.one_point_short
         (Sample.world Sample.everybody 170)) = Ret tt /\
  entered (trace (snd (publish false Sample.header Sample.one_point_short
                         (Sample.world Sample.everybody 170))))
  = all_channels /\
  map fst
    (published (trace (snd (publish false Sample.header Sample.one_point_short
                              (Sample.world Sample.everybody 170)))))
  = [camera_info_pub_; depth_pub_; intensity_pub_; state_pub_; imu_pub_;
     device_status_pub_; io_pub_; roi_pub_; field_pub_].
Proof. repeat split. Qed.


(** ** Metadata *)

(** C7.  Whatever the frame, the subscribers and the outcome, every
    message [publish] hands to the transport during one call carries
    the header the caller supplied; any two of them carry the same
    header. *)
Theorem header_on_every_message (be : bool) (hdr : Header.t)
    (f : SafeVisionaryData.t) (w : World) :
  exists out,
    snd (publish be hdr f w) = record out w /\
    (forall c m, In (Published c m) out -> header_of m = hdr) /\
    (forall c1 m1 c2 m2,
        In (Published c1 m1) out -> In (Published c2 m2) out ->
        header_of m1 = header_of m2).
Proof.
  destruct (stamped_publish be hdr f w) as (out & Hs & Hf & _).
  exists out. split; [exact Hs|].
  assert (H : forall c m, In (Published c m) out -> header_of m = hdr).
  { intros c m Hin. rewrite Forall_forall in Hf. exact (Hf _ Hin). }
  split; [exact H|].
  intros c1 m1 c2 m2 H1 H2.
  now rewrite (H c1 m1 H1), (H c2 m2 H2).
Qed.

(** ** Repeated runs *)

(** X15.  For a frame whose dimensions are in range, whose three maps
    hold one sample per pixel and whose point buffer is not cut short
    by the 32-bit size when the point vector is as long as the
    intensity map, two runs of [publish] with the same header and frame
    in worlds with the same subscriber counts (for instance one run
    after the other) both return and hand the same messages, byte for
    byte, to the transport, whatever was published before and whatever
    fresh memory holds; a run leaves the subscriber counts as they
    were. *)
Theorem publish_repeatable (be : bool) (hdr : Header.t)
    (f : SafeVisionaryData.t) (w1 w2 : World) :
  well_formed f ->
  (lengths_match f = true -> cloud_fits f) ->
  agree w1 w2 ->
  fst (publish be hdr f w1) = Ret tt /\
  fst (publish be hdr f w2) = Ret tt /\
  emitted w1 (snd (publish be hdr f w1))
  = emitted w2 (snd (publish be hdr f w2)) /\
  agree w1 (snd (publish be hdr f w1)) /\
  emitted (snd (publish be hdr f w1))
    (snd (publish be hdr f (snd (publish be hdr f w1))))
  = emitted w1 (snd (publish be hdr f w1)).
Proof.
  intros Hwf Hfits Ha.
  destruct (steady_publish be hdr f Hwf w1 w2 Ha) as (r & out & H1 & H2).
  assert (Ha' : agree w1 (record out w1)) by (intro c; reflexivity).
  destruct (steady_publish be hdr f Hwf w1 (record out w1) Ha')
    as (r' & out' & H1' & H2').
  destruct (runs_unique _ _ _ _ _ _ H1 H1') as [<- <-].
  destruct (runs_unique _ _ _ _ _ _ H1 (publish_runs be hdr f Hwf Hfits w1))
    as [-> _].
  unfold runs in H1, H2, H2'. rewrite H1, H2. cbn [fst snd].
  rewrite H2'. cbn [snd]. rewrite !emitted_record.
  repeat split; assumption.
Qed.

Lemma publish_repeatable_witness :
  well_formed Sample.two_pixels /\
  agree (Sample.world Sample.everybody 170)
    (Sample.world Sample.everybody 85) /\
  fst (publish false Sample.header Sample.two_pixels
         (Sample.world Sample.everybody 170)) = Ret tt /\
  emitted (Sample.world Sample.everybody 170)
    (snd (publish false Sample.header Sample.two_pixels
            (Sample.world Sample.everybody 170)))
  = emitted (Sample.world Sample.everybody 85)
      (snd (publish false Sample.header Sample.two_pixels
              (Sample.world Sample.everybody 85))).
Proof.
  assert (Ha : agree (Sample.world Sample.everybody 170)
                 (Sample.world Sample.everybody 85))
    by (intro c; reflexivity).
  assert (Hwf : well_formed Sample.two_pixels)
    by (repeat split; vm_compute; (discriminate || reflexivity)).
  assert (Hfits : lengths_match Sample.two_pixels = true
                  -> cloud_fits Sample.two_pixels)
    by (intros _; vm_compute; reflexivity).
  split; [exact Hwf|]. split; [exact Ha|].
  destruct (publish_repeatable false Sample.header Sample.two_pixels
              _ _ Hwf Hfits Ha) as (Hr & _ & He & _).
  split; [exact Hr|exact He].
Defined.

(** C8, where the code fails.  Two pixels and a distance map of one
    sample, only the depth image subscribed, the same header, frame and
    subscribers in two runs that differ in what fresh memory holds.
    The raster is allocated without being written and the copy fills
    its first sample only, so both runs return and each publishes, as
    the second sample of the depth image, the memory it found: the two
    images differ. *)
Lemma short_map_shows_fresh_memory :
  agree (Sample.world Sample.depth_only 170) (Sample.world Sample.depth_only 85) /\
  fst (publish false Sample.header Sample.half_filled
         (Sample.world Sample.depth_only 170)) = Ret tt /\
  fst (publish false Sample.header Sample.half_filled
         (Sample.world Sample.depth_only 85)) = Ret tt /\
  map snd
    (published
       (emitted (Sample.world Sample.depth_only 170)
          (snd (publish false Sample.header Sample.half_filled
                  (Sample.world Sample.depth_only 170)))))
  = [MsgImage (raster_image false Sample.header TYPE_16UC1 1 2 2
                 [10; 0; 170; 170])] /\
  map snd
    (published
       (emitted (Sample.world Sample.depth_only 85)
          (snd (publish false Sample.header Sample.half_filled
                  (Sample.world Sample.depth_only 85)))))
  = [MsgImage (raster_image false Sample.header TYPE_16UC1 1 2 2
                 [10; 0; 85; 85])] /\
  emitted (Sample.world Sample.depth_only 170)
    (snd (publish false Sample.header Sample.half_filled
            (Sample.world Sample.depth_only 170)))
  <> emitted (Sample.world Sample.depth_only 85)
       (snd (publish false Sample.header Sample.half_filled
               (Sample.world Sample.depth_only 85))).
Proof.
  split; [intro c; reflexivity|].
  do 4 (split; [reflexivity|]).
  intro H. apply (f_equal (fun evs => map snd (published evs))) in H.
  vm_compute in H. discriminate H.
Qed.

(** ** Reading scalars back from bytes *)

Lemma le_value_le_bytes (n : nat) :
  forall v, le_value (le_bytes n v) = v mod 256 ^ Z.of_nat n.
Proof.
  induction n as [|n IH]; intro v.
  - simpl. now rewrite Z.mod_1_r.
  - cbn [le_bytes le_value fold_right]. fold (le_value (le_bytes n (v / 256))).
    rewrite IH, Nat2Z.inj_succ, Z.pow_succ_r by lia.
    rewrite Z.rem_mul_r by lia. reflexivity.
Qed.

(** Reading in the byte order in which the bytes were written. *)
Lemma object_value_bytes (be : bool) (n : nat) (v : Z) :
  0 <= v < 256 ^ Z.of_nat n ->
  object_value be (object_bytes be n v) = v.
Proof.
  intro H. unfold object_value, object_bytes.
  destruct be; rewrite ?rev_involutive, le_value_le_bytes;
    now apply Z.mod_small.
Qed.

(** A 16-bit value written big-endian and read little-endian. *)
Lemma swapped_uint16 (v : Z) :
  0 <= v < 65536 ->
  object_value false (object_bytes true 2 v) = 256 * (v mod 256) + v / 256.
Proof.
  intro H. unfold object_value, object_bytes.
  cbn [rev le_bytes app le_value fold_right].
  assert (v / 256 < 256) by (apply Z.div_lt_upper_bound; lia).
  assert (0 <= v / 256) by (apply Z.div_pos; lia).
  rewrite (Z.mod_small (v / 256)) by lia. lia.
Qed.

Lemma element_flat_map {A : Type} (g : A -> list byte) (k : nat) :
  (forall a, length (g a) = k) ->
  forall (l : list A) (i : nat) (a : A),
    nth_error l i = Some a -> element k i (flat_map g l) = g a.
Proof.
  intros Hk l. unfold element.
  induction l as [|b l IH]; intros i a E; [now destruct i|].
  cbn [flat_map]. destruct i as [|i].
  - injection E as ->. rewrite Nat.mul_0_r, skipn_0.
    now apply firstn_prefix.
  - replace (k * S i)%nat with (k + k * i)%nat by lia.
    rewrite skipn_prefix by apply Hk. now apply IH.
Qed.

Lemma raster_image_holds (be : bool) (hdr : Header.t) (enc : string)
    (h w : Z) (elem : nat) (vec : list Z) :
  0 <= h -> 0 <= w ->
  Z.of_nat (length vec) = h * w ->
  image_holds
    (raster_image be hdr enc h w elem
       (flat_map (object_bytes be elem) vec)) h w enc elem vec.
Proof.
  intros Hh Hw Hl. unfold image_holds, raster_image.
  cbn [Image.height Image.width Image.encoding Image.step Image.data
       Image.is_bigendian].
  repeat split.
  - rewrite (flat_map_constant_length _ elem (object_bytes_length be elem)).
    nia.
  - intros i v E Hv.
    rewrite (element_flat_map _ elem (object_bytes_length be elem) vec i v E).
    now apply object_value_bytes.
Qed.

(** ** The image channels *)

(** X1.  For a frame with dimensions in range whose distance and
    intensity maps hold one sample per pixel, [publishDepthImage] and
    [publishIntensityImage] each publish one [16UC1] image of the
    frame's height and width with a step of two bytes per pixel and
    [step * height] bytes of data; reading sample [i] in the byte
    order the image declares gives back sample [i] of the map. *)
Theorem images16_round_trip (be : bool) (hdr : Header.t)
    (f : SafeVisionaryData.t) (w : World) :
  dims_in_range f ->
  Z.of_nat (length (SafeVisionaryData.getDistanceMap f))
  = SafeVisionaryData.getHeight f * SafeVisionaryData.getWidth f ->
  Z.of_nat (length (SafeVisionaryData.getIntensityMap f))
  = SafeVisionaryData.getHeight f * SafeVisionaryData.getWidth f ->
  exists depth intensity,
    publishDepthImage be hdr f w
    = (Ret tt, record (announce depth_pub_ (MsgImage depth)) w) /\
    publishIntensityImage be hdr f w
    = (Ret tt, record (announce intensity_pub_ (MsgImage intensity)) w) /\
    image_holds depth (SafeVisionaryData.getHeight f)
      (SafeVisionaryData.getWidth f) TYPE_16UC1 2
      (SafeVisionaryData.getDistanceMap f) /\
    image_holds intensity (SafeVisionaryData.getHeight f)
      (SafeVisionaryData.getWidth f) TYPE_16UC1 2
      (SafeVisionaryData.getIntensityMap f).
Proof.
  intros Hd Hdist Hint. pose proof Hd as [[Hh _] [Hw _]].
  eexists _, _.
  split; [|split; [|split]].
  - apply runs_announce_image. intro w'. now apply Vec16ToImage_exact.
  - apply runs_announce_image. intro w'. now apply Vec16ToImage_exact.
  - now apply raster_image_holds.
  - now apply raster_image_holds.
Qed.

Lemma images16_round_trip_witness :
  dims_in_range Sample.two_pixels /\
  exists depth,
    publishDepthImage true Sample.header Sample.two_pixels
      (Sample.world Sample.everybody 170)
    = (Ret tt,
       record (announce depth_pub_ (MsgImage depth))
         (Sample.world Sample.everybody 170)) /\
    object_value (Image.is_bigendian depth) (element 2 1 (Image.data depth))
    = 20.
Proof.
  assert (Hd : dims_in_range Sample.two_pixels)
    by (repeat split; vm_compute; discriminate).
  split; [exact Hd|].
  destruct (images16_round_trip true Sample.header Sample.two_pixels
              (Sample.world Sample.everybody 170) Hd eq_refl eq_refl)
    as (depth & intensity & Hrun & _ & Hholds & _).
  exists depth. split; [exact Hrun|].
  destruct Hholds as (_ & _ & _ & _ & _ & Hread).
  apply (Hread 1%nat 20); [reflexivity|vm_compute; split; discriminate || reflexivity].
Defined.

Lemma uint8_bytes_map (be : bool) (vec : list Z) :
  flat_map (uint8_bytes be) vec = map (fun v => v mod 256) vec.
Proof.
  induction vec as [|v vec IH]; [reflexivity|].
  cbn [flat_map map]. rewrite IH. now destruct be.
Qed.

(** X2.  For a frame with dimensions in range whose state map holds one
    sample per pixel, [publishStateMap] publishes one [8UC1] image of
    the frame's height and width with one byte per pixel: on either
    byte order the data is the state map itself, each sample reduced
    to its low eight bits. *)
Theorem state_image_round_trip (be : bool) (hdr : Header.t)
    (f : SafeVisionaryData.t) (w : World) :
  dims_in_range f ->
  Z.of_nat (length (SafeVisionaryData.getStateMap f))
  = SafeVisionaryData.getHeight f * SafeVisionaryData.getWidth f ->
  exists state,
    publishStateMap be hdr f w
    = (Ret tt, record (announce state_pub_ (MsgImage state)) w) /\
    image_holds state (SafeVisionaryData.getHeight f)
      (SafeVisionaryData.getWidth f) TYPE_8UC1 1
      (SafeVisionaryData.getStateMap f) /\
    Image.data state
    = map (fun v => v mod 256) (SafeVisionaryData.getStateMap f).
Proof.
  intros Hd Hst. pose proof Hd as [[Hh _] [Hw _]].
  eexists. split; [|split].
  - apply runs_announce_image. intro w'. now apply Vec8ToImage_exact.
  - now apply raster_image_holds.
  - apply uint8_bytes_map.
Qed.

Lemma state_image_round_trip_witness :
  dims_in_range Sample.two_pixels /\
  exists state,
    publishStateMap true Sample.header Sample.two_pixels
      (Sample.world Sample.everybody 170)
    = (Ret tt,
       record (announce state_pub_ (MsgImage state))
         (Sample.world Sample.everybody 170)) /\
    Image.data state = [1; 2].
Proof.
  assert (Hd : dims_in_range Sample.two_pixels)
    by (repeat split; vm_compute; discriminate).
  split; [exact Hd|].
  destruct (state_image_round_trip true Sample.header Sample.two_pixels
              (Sample.world Sample.everybody 170) Hd eq_refl)
    as (state & Hrun & _ & Hdata).
  exists state. split; [exact Hrun|exact Hdata].
Defined.

(** ** Fields of the point buffer *)

Lemma slice_of_block {A : Type} (l block : list A) (n a k : nat) :
  firstn n l = block -> (a + k <= n)%nat ->
  firstn k (skipn a l) = firstn k (skipn a block).
Proof.
  intros <- H.
  rewrite !firstn_skipn_comm, firstn_firstn.
  now rewrite Nat.min_l by lia.
Qed.

Lemma cloud_field_coordinates (be : bool) (pts : list PointXYZ.t)
    (ints : list Z) (i : nat) (p : PointXYZ.t) :
  length ints = length pts ->
  nth_error pts i = Some p ->
  cloud_field 4 0 i (packed be pts ints) = float_bytes be (PointXYZ.x p) /\
  cloud_field 4 4 i (packed be pts ints) = float_bytes be (PointXYZ.y p) /\
  cloud_field 4 8 i (packed be pts ints) = float_bytes be (PointXYZ.z p).
Proof.
  intros Hl E.
  assert (Hlt : (i < length pts)%nat) by (apply nth_error_Some; congruence).
  pose proof (packed_point be p pts ints i Hl Hlt) as Hb.
  rewrite (nth_error_nth _ _ _ E) in Hb.
  unfold cloud_field.
  rewrite !(Nat.add_comm (14 * i)), <- !skipn_skipn.
  rewrite !(slice_of_block _ _ 12 _ 4 Hb) by lia.
  unfold PointXYZ_bytes.
  assert (Hx : length (float_bytes be (PointXYZ.x p)) = 4%nat)
    by apply object_bytes_length.
  assert (Hy : length (float_bytes be (PointXYZ.y p)) = 4%nat)
    by apply object_bytes_length.
  assert (Hz : length (float_bytes be (PointXYZ.z p)) = 4%nat)
    by apply object_bytes_length.
  repeat split.
  - rewrite skipn_0. now apply firstn_prefix.
  - rewrite <- (Nat.add_0_r 4) at 2. rewrite skipn_prefix, skipn_0 by exact Hx.
    now apply firstn_prefix.
  - rewrite app_assoc, <- (Nat.add_0_r 8), skipn_prefix, skipn_0
      by (rewrite length_app; lia).
    rewrite <- Hz. apply firstn_all.
Qed.

Lemma cloud_field_intensity (be : bool) (pts : list PointXYZ.t)
    (ints : list Z) (i : nat) (v : Z) :
  length ints = length pts ->
  nth_error ints i = Some v ->
  cloud_field 2 12 i (packed be pts ints) = uint16_bytes be v.
Proof.
  intros Hl E.
  assert (Hlt : (i < length pts)%nat)
    by (rewrite <- Hl; apply nth_error_Some; congruence).
  unfold cloud_field.
  rewrite (packed_intensity be v pts ints i Hl Hlt).
  f_equal. now apply nth_error_nth.
Qed.

(** X3.  Under the conditions of a complete point cloud (one point and
    one intensity per pixel, byte size below [2 ^ 32]) the published
    cloud always declares little-endian data.  On a little-endian host
    the four fields of every point, read at their declared offsets 0,
    4, 8 and 12 in the declared byte order, are the point's coordinate
    patterns and its intensity.  On a big-endian host the data is in
    host order all the same, so a reader following the declaration gets
    the intensity with its two bytes swapped. *)
Theorem cloud_fields_and_byte_order (be : bool) (hdr : Header.t)
    (f : SafeVisionaryData.t) (w : World) :
  Z.of_nat (length (points_of f))
  = SafeVisionaryData.getHeight f * SafeVisionaryData.getWidth f ->
  Z.of_nat (length (SafeVisionaryData.getIntensityMap f))
  = SafeVisionaryData.getHeight f * SafeVisionaryData.getWidth f ->
  cloud_fits f ->
  exists cloud,
    publishPointCloud be hdr f w
    = (Ret tt,
       record (cloud_prelude f
               ++ [Published pointcloud_pub_ (MsgPointCloud2 cloud)]) w) /\
    PointCloud2.is_bigendian cloud = false /\
    forall (i : nat) (p : PointXYZ.t) (v : Z),
      nth_error (points_of f) i = Some p ->
      nth_error (SafeVisionaryData.getIntensityMap f) i = Some v ->
      0 <= PointXYZ.x p < 2 ^ 32 -> 0 <= PointXYZ.y p < 2 ^ 32 ->
      0 <= PointXYZ.z p < 2 ^ 32 -> 0 <= v < 65536 ->
      let read k off :=
        object_value (PointCloud2.is_bigendian cloud)
          (cloud_field k off i (PointCloud2.data cloud)) in
      (be = false ->
       read 4%nat 0%nat = PointXYZ.x p /\ read 4%nat 4%nat = PointXYZ.y p /\
       read 4%nat 8%nat = PointXYZ.z p /\ read 2%nat 12%nat = v) /\
      (be = true -> read 2%nat 12%nat = 256 * (v mod 256) + v / 256).
Proof.
  intros Hp Hi Hf.
  assert (Hl : length (SafeVisionaryData.getIntensityMap f)
               = length (points_of f)) by lia.
  assert (Hm : lengths_match f = true) by now apply lengths_match_true.
  exists (cloud_msg hdr f
            (packed be (points_of f) (SafeVisionaryData.getIntensityMap f))).
  split; [|split; [reflexivity|]].
  - apply publishPointCloud_packs; [assumption|].
    now apply packing_succeeds.
  - intros i p v Ep Ev Hx Hy Hz Hv. cbn zeta.
    cbn [cloud_msg PointCloud2.data PointCloud2.is_bigendian].
    destruct (cloud_field_coordinates be _ _ i p Hl Ep) as (Ex & Ey & Ez).
    rewrite Ex, Ey, Ez, (cloud_field_intensity be _ _ i v Hl Ev).
    split; intros ->.
    + unfold float_bytes, uint16_bytes.
      rewrite !object_value_bytes; auto.
    + now apply swapped_uint16.
Qed.

Lemma cloud_fields_and_byte_order_witness :
  cloud_fits Sample.two_pixels /\
  exists cloud,
    publishPointCloud true Sample.header Sample.two_pixels
      (Sample.world Sample.everybody 170)
    = (Ret tt,
       record (cloud_prelude Sample.two_pixels
               ++ [Published pointcloud_pub_ (MsgPointCloud2 cloud)])
         (Sample.world Sample.everybody 170)) /\
    object_value (PointCloud2.is_bigendian cloud)
      (cloud_field 2 12 0 (PointCloud2.data cloud)) = 513.
Proof.
  assert (Hf : cloud_fits Sample.two_pixels) by (vm_compute; reflexivity).
  split; [exact Hf|].
  destruct (cloud_fields_and_byte_order true Sample.header Sample.two_pixels
              (Sample.world Sample.everybody 170) eq_refl eq_refl Hf)
    as (cloud & Hrun & _ & Hread).
  exists cloud. split; [exact Hrun|].
  apply (Hread 0%nat (Sample.point 1) 258);
    try reflexivity; vm_compute; split; discriminate || reflexivity.
Defined.

(** ** What a published point cloud always satisfies *)

Lemma pack_points_length (be : bool) (ps ox oi : Z) :
  forall (pts : list PointXYZ.t) (ints : list Z) (i : nat)
         (data out : list byte),
    pack_points be ps ox oi i pts ints data = Ret out ->
    length out = length data.
Proof.
  induction pts as [|p pts IH]; intros ints i data out E.
  - simpl in E. now injection E as <-.
  - destruct ints as [|v ints]; [discriminate|].
    cbn [pack_points] in E.
    destruct (memcpy data _ (PointXYZ_bytes be p)) as [d1|] eqn:E1;
      [|discriminate].
    destruct (memcpy d1 _ (uint16_bytes be v)) as [d2|] eqn:E2;
      [|discriminate].
    rewrite (IH _ _ _ _ E), (memcpy_length _ _ _ _ E2).
    now apply memcpy_length in E1.
Qed.

Lemma skipn_repeat {A : Type} (x : A) (k n : nat) :
  skipn k (repeat x n) = repeat x (n - k).
Proof.
  revert k. induction n as [|n IH]; intro k.
  - now destruct k.
  - destruct k as [|k]; [reflexivity|]. simpl. apply IH.
Qed.

(** X4.  When the intensity map is as long as the point vector and the
    resized buffer holds fourteen bytes for every point, so that every
    copy of the packing loop stays inside it, [publishPointCloud]
    returns and hands one cloud to the transport.  The cloud carries
    the header of the call, a point step of 14, a row step of
    [point_step * width] and [height * row_step] bytes of data (both
    products taken in 32 bits); the data starts with the points packed
    one after the other, and every byte behind the last point is zero. *)
Theorem published_cloud_consistent (be : bool) (hdr : Header.t)
    (f : SafeVisionaryData.t) (w : World) :
  length (SafeVisionaryData.getIntensityMap f) = length (points_of f) ->
  14 * Z.of_nat (length (points_of f)) <= cloud_size f ->
  exists cloud,
    publishPointCloud be hdr f w
    = (Ret tt,
       record (cloud_prelude f
               ++ [Published pointcloud_pub_ (MsgPointCloud2 cloud)]) w) /\
    PointCloud2.header cloud = hdr /\
    PointCloud2.point_step cloud = 14 /\
    PointCloud2.row_step cloud
    = uint32_t (PointCloud2.point_step cloud * PointCloud2.width cloud) /\
    Z.of_nat (length (PointCloud2.data cloud))
    = uint32_t (PointCloud2.height cloud * PointCloud2.row_step cloud) /\
    PointCloud2.data cloud
    = packed be (points_of f) (SafeVisionaryData.getIntensityMap f)
      ++ repeat 0 (length (PointCloud2.data cloud)
                   - 14 * length (points_of f)).
Proof.
  intros Hl Hfit.
  assert (Hm : lengths_match f = true) by now apply lengths_match_true.
  pose proof (pack_into_zeros be (points_of f)
                (SafeVisionaryData.getIntensityMap f)
                (Z.to_nat (cloud_size f)) Hl) as Hp.
  destruct (Nat.leb_spec (14 * length (points_of f))
              (Z.to_nat (cloud_size f))) as [Hle|Hgt]; [|lia].
  eexists. split; [exact (publishPointCloud_packs be hdr f w _ Hm Hp)|].
  cbn [cloud_msg PointCloud2.header PointCloud2.point_step
       PointCloud2.row_step PointCloud2.width PointCloud2.height
       PointCloud2.data].
  repeat split.
  - rewrite length_app, packed_length, skipn_repeat, repeat_length
      by assumption.
    unfold cloud_size in *. lia.
  - rewrite skipn_repeat. do 2 f_equal.
    rewrite length_app, packed_length, repeat_length by assumption.
    lia.
Qed.

Lemma published_cloud_consistent_witness :
  14 * Z.of_nat (length (points_of Sample.half_filled))
  <= cloud_size Sample.half_filled /\
  exists cloud,
    publishPointCloud true Sample.header Sample.half_filled
      (Sample.world Sample.everybody 170)
    = (Ret tt,
       record (cloud_prelude Sample.half_filled
               ++ [Published pointcloud_pub_ (MsgPointCloud2 cloud)])
         (Sample.world Sample.everybody 170)) /\
    PointCloud2.data cloud
    = [0; 0; 0; 1; 0; 0; 0; 2; 0; 0; 0; 3; 1; 2] ++ repeat 0 14.
Proof.
  assert (Hfit : 14 * Z.of_nat (length (points_of Sample.half_filled))
                 <= cloud_size Sample.half_filled)
    by (vm_compute; discriminate).
  split; [exact Hfit|].
  destruct (published_cloud_consistent true Sample.header Sample.half_filled
              (Sample.world Sample.everybody 170) eq_refl Hfit)
    as (cloud & Hrun & _ & _ & _ & _ & _).
  exists cloud. split; [exact Hrun|].
  apply (f_equal (fun r => published (trace (snd r)))) in Hrun.
  vm_compute in Hrun. injection Hrun as <-. reflexivity.
Defined.

(** ** The entry point on any frame *)

Lemma silent_ret {A : Type} (a : A) : silent (ret a).
Proof. intro w. now exists (Ret a). Qed.

Lemma silent_lift {A : Type} (o : Outcome A) : silent (lift o).
Proof. intro w. now exists o. Qed.

Lemma silent_throw {A : Type} (why : Failure) : silent (@throw A why).
Proof. intro w. now exists (Abort why). Qed.

Lemma silent_fresh (n : nat) : silent (fresh n).
Proof. intro w. eexists. reflexivity. Qed.

Lemma silent_bind {A B : Type} (m : M A) (k : A -> M B) :
  silent m -> (forall a, silent (k a)) -> silent (bind m k).
Proof.
  intros Hm Hk w. unfold bind. destruct (Hm w) as [[a|why] ->].
  - apply Hk.
  - now exists (Abort why).
Qed.

Lemma silent_Mat_create (rows cols : Z) (elem : nat) :
  silent (Mat_create rows cols elem).
Proof.
  unfold Mat_create. destruct ((0 <=? rows) && (0 <=? cols)).
  - apply silent_bind; [apply silent_fresh|intro; apply silent_ret].
  - apply silent_throw.
Qed.

Lemma silent_Vec16ToImage (be : bool) (hdr : Header.t)
    (f : SafeVisionaryData.t) (vec : list Z) :
  silent (Vec16ToImage be hdr f vec).
Proof.
  apply silent_bind; [apply silent_Mat_create|intro image].
  apply silent_bind; [apply silent_lift|intro; apply silent_ret].
Qed.

Lemma silent_Vec8ToImage (be : bool) (hdr : Header.t)
    (f : SafeVisionaryData.t) (vec : list Z) :
  silent (Vec8ToImage be hdr f vec).
Proof.
  apply silent_bind; [apply silent_Mat_create|intro image].
  apply silent_bind; [apply silent_lift|intro; apply silent_ret].
Qed.

Lemma routine_of_announce (c : Channel) (m : Message) :
  routine_of c (bind (emit (Entered c)) (fun _ => publish_on c m)).
Proof.
  intro w. exists (Ret tt), (announce c m).
  split; [apply runs_announce|]. split; [reflexivity|]. now left.
Qed.

Lemma routine_of_image (c : Channel) (make : M Image.t) :
  silent make ->
  routine_of c
    (bind (emit (Entered c))
       (fun _ => bind make (fun image => publish_on c (MsgImage image)))).
Proof.
  intros Hs w. destruct (Hs (record [Entered c] w)) as [[img|why] E].
  - exists (Ret tt), (announce c (MsgImage img)).
    split; [|split; [reflexivity|now left]].
    apply (runs_bind _ _ _ tt _ [Entered c] [Published c (MsgImage img)]);
      [apply runs_emit|].
    apply (runs_bind _ _ _ img _ [] [Published c (MsgImage img)]);
      [|apply runs_emit].
    unfold runs. now rewrite E, record_nil.
  - exists (Abort why), [Entered c].
    split; [|split; [reflexivity|now right]].
    rewrite <- (app_nil_r [Entered c]).
    apply (runs_bind _ _ _ tt _ [Entered c] []); [apply runs_emit|].
    apply runs_bind_abort. unfold runs. now rewrite E, record_nil.
Qed.

Lemma routine_of_publishPointCloud (be : bool) (hdr : Header.t)
    (f : SafeVisionaryData.t) :
  routine_of pointcloud_pub_ (publishPointCloud be hdr f).
Proof.
  intro w. destruct (lengths_match f) eqn:Hm.
  - destruct (pack_points be 14 0 12 0 (points_of f)
                (SafeVisionaryData.getIntensityMap f)
                (repeat 0 (Z.to_nat (cloud_size f)))) as [data|why] eqn:Hp.
    + eexists _, _.
      split; [exact (publishPointCloud_packs be hdr f w data Hm Hp)|].
      split; [|left; split]; reflexivity.
    + eexists _, _.
      split; [exact (publishPointCloud_aborts be hdr f w why Hm Hp)|].
      split; [|right]; reflexivity.
  - eexists _, _.
    split; [exact (publishPointCloud_mismatch be hdr f w Hm)|].
    split; [|right]; reflexivity.
Qed.

Lemma times_app (c : Channel) (a b : list Channel) :
  times c (a ++ b) = (times c a + times c b)%nat.
Proof. unfold times. now rewrite filter_app, length_app. Qed.

Lemma visits_if_subscribed (c : Channel) (body : M unit) :
  routine_of c body -> visits [c] (if_subscribed c body).
Proof.
  intros Hb w. unfold if_subscribed, bind, numSubscribers.
  destruct (0 <? getNumSubscribers w c) eqn:Hs.
  - destruct (Hb w) as (r & evs & Hr & He & Hp).
    exists r, evs, 1%nat. split; [exact Hr|].
    cbn [firstn filter]. unfold subscribed. rewrite Hs, He.
    split; [reflexivity|]. split; [reflexivity|].
    intro c'. destruct Hp as [[-> _]| ->]; [lia|].
    unfold times. simpl. lia.
  - exists (Ret tt), [], 1%nat. unfold ret. rewrite record_nil.
    cbn [firstn filter]. unfold subscribed. rewrite Hs.
    repeat split; auto.
Qed.

Lemma visits_bind (c : Channel) (l : list Channel) (m1 m2 : M unit) :
  visits [c] m1 -> visits l m2 -> visits (c :: l) (bind m1 (fun _ => m2)).
Proof.
  intros H1 H2 w. unfold bind.
  destruct (H1 w) as (r1 & out1 & k1 & E1 & He1 & Hr1 & Hp1). rewrite E1.
  destruct r1 as [[]|why].
  - destruct (H2 (record out1 w)) as (r2 & out2 & k2 & E2 & He2 & Hr2 & Hp2).
    exists r2, (out1 ++ out2), (S k2). rewrite E2, record_record.
    split; [reflexivity|].
    change (subscribed (record out1 w)) with (subscribed w) in *.
    rewrite entered_app, published_app, map_app, He2, (Hr1 eq_refl).
    split; [|split].
    + cbn [firstn filter app]. now destruct (subscribed w c).
    + intro Hret. specialize (Hr2 Hret). rewrite He2 in Hr2. rewrite Hr2.
      cbn [filter app]. now destruct (subscribed w c).
    + intro c'. rewrite !times_app.
      specialize (Hp1 c'). specialize (Hp2 c').
      rewrite (Hr1 eq_refl) in Hp1. rewrite He2 in Hp2. lia.
  - exists (Abort why), out1, (Nat.min k1 1).
    split; [reflexivity|]. split; [|split; [discriminate|exact Hp1]].
    rewrite He1. f_equal. destruct k1 as [|k1]; [reflexivity|].
    cbn [Nat.min firstn]. now destruct k1.
Qed.

Lemma publish_visits (be : bool) (hdr : Header.t) (f : SafeVisionaryData.t) :
  visits all_channels (publish be hdr f).
Proof.
  unfold publish, all_channels.
  repeat (apply visits_bind; [|]);
    apply visits_if_subscribed;
    first [ apply routine_of_announce
          | apply routine_of_publishPointCloud
          | apply routine_of_image;
            first [ apply silent_Vec16ToImage | apply silent_Vec8ToImage ] ].
Qed.

Lemma times_all_channels (c : Channel) : times c all_channels = 1%nat.
Proof. now destruct c. Qed.

Lemma times_filter_le (c : Channel) (p : Channel -> bool) (l : list Channel) :
  (times c (filter p l) <= times c l)%nat.
Proof.
  unfold times. induction l as [|a l IH]; [reflexivity|].
  cbn [filter]. destruct (p a); cbn [filter];
    destruct (Channel_eqb c a); simpl; lia.
Qed.

Lemma times_firstn_le (c : Channel) (k : nat) (l : list Channel) :
  (times c (firstn k l) <= times c l)%nat.
Proof.
  unfold times. revert k. induction l as [|a l IH]; intro k.
  - now rewrite firstn_nil.
  - destruct k as [|k]; cbn [firstn filter]; [simpl; lia|].
    specialize (IH k). destruct (Channel_eqb c a); simpl; lia.
Qed.

Lemma Channel_eqb_eq (a b : Channel) : Channel_eqb a b = true <-> a = b.
Proof. destruct a, b; simpl; split; (reflexivity || discriminate). Qed.

Lemma times_positive (c : Channel) (l : list Channel) :
  (0 < times c l)%nat <-> In c l.
Proof.
  unfold times. induction l as [|a l IH]; cbn [filter In].
  - simpl. split; [lia|contradiction].
  - destruct (Channel_eqb c a) eqn:E.
    + apply Channel_eqb_eq in E. subst a. simpl. split; [auto|lia].
    + rewrite IH. split; [auto|]. intros [->|H]; [|assumption].
      assert (Channel_eqb c c = true) by now apply Channel_eqb_eq.
      congruence.
Qed.

(** X5.  Whatever the frame and whether or not the call runs to its
    end, [publish] enters the transcode routines in the order of the
    source, each subscribed channel at most once and no unsubscribed
    channel ever: the channels entered are the subscribed ones among
    the first [k] publishers, and all subscribed ones when the call
    returns. *)
Theorem publish_order_on_any_frame (be : bool) (hdr : Header.t)
    (f : SafeVisionaryData.t) (w : World) :
  exists out k,
    snd (publish be hdr f w) = record out w /\
    entered out = filter (subscribed w) (firstn k all_channels) /\
    (fst (publish be hdr f w) = Ret tt ->
     entered out = filter (subscribed w) all_channels) /\
    (forall c, In (Entered c) out -> 0 < getNumSubscribers w c) /\
    (forall c, (times c (entered out) <= 1)%nat).
Proof.
  destruct (publish_visits be hdr f w) as (r & out & k & E & He & Hr & _).
  exists out, k. rewrite E. cbn [fst snd].
  split; [reflexivity|]. split; [exact He|]. split; [exact Hr|]. split.
  - intros c Hin. apply In_entered in Hin. rewrite He in Hin.
    apply filter_In in Hin. now apply Z.ltb_lt.
  - intro c. rewrite He, <- (times_all_channels c).
    etransitivity; [apply times_filter_le|apply times_firstn_le].
Qed.

(** X6.  Whatever the frame and the outcome, [publish] hands at most one
    message per channel to the transport during one call, and only on a
    channel that has a subscriber and whose routine it entered. *)
Theorem publish_at_most_once (be : bool) (hdr : Header.t)
    (f : SafeVisionaryData.t) (w : World) :
  exists out,
    snd (publish be hdr f w) = record out w /\
    (forall c, (times c (map fst (published out)) <= 1)%nat) /\
    (forall c m,
        In (Published c m) out ->
        In (Entered c) out /\ 0 < getNumSubscribers w c).
Proof.
  destruct (publish_visits be hdr f w) as (r & out & k & E & He & _ & Hp).
  exists out. rewrite E. cbn [snd].
  assert (Hone : forall c, (times c (entered out) <= 1)%nat).
  { intro c. rewrite He, <- (times_all_channels c).
    etransitivity; [apply times_filter_le|apply times_firstn_le]. }
  split; [reflexivity|]. split.
  - intro c. etransitivity; [apply Hp|apply Hone].
  - intros c m Hin.
    assert (Hc : In c (entered out)).
    { apply times_positive. specialize (Hp c).
      assert (H : (0 < times c (map fst (published out)))%nat)
        by (apply times_positive, published_channel; now exists m).
      lia. }
    split; [now apply In_entered|].
    rewrite He in Hc. apply filter_In in Hc. now apply Z.ltb_lt.
Qed.

(** ** Channels that cannot fail *)

Lemma runs_if_unsubscribed (s : Channel -> Z) (c : Channel) (body : M unit)
    (evs : list Event) (w : World) :
  getNumSubscribers w = s -> s c <= 0 ->
  runs (if_subscribed c body) w (Ret tt) (served s c evs).
Proof.
  intros <- H. unfold if_subscribed, served, runs, bind, numSubscribers.
  destruct (Z.ltb_spec 0 (getNumSubscribers w c)); [lia|].
  unfold ret. now rewrite record_nil.
Qed.

(** X7.  When none of the four buffer-building channels (point cloud,
    depth, intensity, state) has a subscriber, [publish] returns for
    every frame, however malformed, and every subscribed channel among
    calibration, inertial, device status, I/O, regions and fields
    publishes its message: these six routines cannot fail. *)
Theorem field_copy_channels_never_fail (be : bool) (hdr : Header.t)
    (f : SafeVisionaryData.t) (w : World) :
  (forall c, In c buffer_channels -> getNumSubscribers w c <= 0) ->
  exists out,
    publish be hdr f w = (Ret tt, record out w) /\
    out = frame_trace be hdr f (getNumSubscribers w) /\
    (forall c, In (Entered c) out <-> 0 < getNumSubscribers w c) /\
    (forall c, (exists m, In (Published c m) out)
               <-> 0 < getNumSubscribers w c).
Proof.
  intro Hoff.
  exists (frame_trace be hdr f (getNumSubscribers w)).
  split; [|split; [reflexivity|split]].
  - unfold publish, frame_trace, all_channels. cbn [flat_map].
    rewrite app_nil_r.
    repeat (eapply (runs_bind _ _ _ tt);
            [first [ apply (runs_if_subscribed (getNumSubscribers w));
                     [reflexivity|intro w'; apply runs_announce]
                   | apply (runs_if_unsubscribed (getNumSubscribers w));
                     [reflexivity|apply Hoff; simpl; tauto] ]|]).
    apply (runs_if_subscribed (getNumSubscribers w));
      [reflexivity|intro w'; apply runs_announce].
  - intro c. rewrite In_entered, entered_frame_trace, filter_In, Z.ltb_lt.
    pose proof (all_channels_complete c). tauto.
  - intro c.
    rewrite published_channel, published_frame_trace, filter_In,
      andb_true_iff, Z.ltb_lt.
    pose proof (all_channels_complete c).
    assert (0 < getNumSubscribers w c -> delivers f c = true).
    { intro Hs. destruct c; try reflexivity.
      assert (getNumSubscribers w pointcloud_pub_ <= 0)
        by (apply Hoff; simpl; tauto).
      lia. }
    tauto.
Qed.

Lemma field_copy_channels_never_fail_witness :
  (forall c, In c buffer_channels ->
             getNumSubscribers (Sample.world Sample.imu_and_roi 170) c <= 0) /\
  exists out,
    publish false Sample.header Sample.huge (Sample.world Sample.imu_and_roi 170)
    = (Ret tt, record out (Sample.world Sample.imu_and_roi 170)) /\
    exists m, In (Published roi_pub_ m) out.
Proof.
  assert (Hoff : forall c, In c buffer_channels ->
                   getNumSubscribers (Sample.world Sample.imu_and_roi 170) c
                   <= 0).
  { intros c Hc. simpl in Hc.
    destruct Hc as [<-|[<-|[<-|[<-|[]]]]]; vm_compute; discriminate. }
  split; [exact Hoff|].
  destruct (field_copy_channels_never_fail false Sample.header Sample.huge
              (Sample.world Sample.imu_and_roi 170) Hoff)
    as (out & Hrun & _ & _ & Hpub).
  exists out. split; [exact Hrun|].
  apply Hpub. reflexivity.
Defined.

(** ** The mismatch diagnostic *)

Ltac keeps_step :=
  match goal with
  | |- keeps _ _ (bind _ _) =>
      eapply (keeps_bind _ (fun _ => True)); [|intros ? _]
  | |- keeps _ _ (emit _) => apply keeps_emit; exact I
  | |- keeps _ _ (publish_on _ _) => apply keeps_emit; exact I
  | |- keeps _ _ (ret _) => apply keeps_ret; exact I
  | |- keeps _ _ (lift _) => eapply keeps_weaken; [apply keeps_lift|auto]
  | |- keeps _ _ (throw _) => apply keeps_throw
  | |- keeps _ _ (fresh _) => apply keeps_fresh
  | |- keeps _ _ (numSubscribers _) => apply keeps_numSubscribers
  | |- keeps _ _ (if _ then _ else _) => apply keeps_if
  end.

Lemma unlogged_after_the_cloud (be : bool) (hdr : Header.t)
    (f : SafeVisionaryData.t) :
  keeps unlogged (fun _ => True)
    (if_subscribed depth_pub_ (publishDepthImage be hdr f) ;;
     if_subscribed intensity_pub_ (publishIntensityImage be hdr f) ;;
     if_subscribed state_pub_ (publishStateMap be hdr f) ;;
     if_subscribed imu_pub_ (publishIMUData hdr f) ;;
     if_subscribed device_status_pub_ (publishDeviceStatus hdr f) ;;
     if_subscribed io_pub_ (publishIOs hdr f) ;;
     if_subscribed roi_pub_ (publishROI hdr f) ;;
     if_subscribed field_pub_ (publishFieldInformation hdr f))%pub.
Proof.
  unfold if_subscribed, publishDepthImage, publishIntensityImage,
    publishStateMap, publishIMUData, publishDeviceStatus, publishIOs,
    publishROI, publishFieldInformation, Vec16ToImage, Vec8ToImage,
    Mat_create.
  repeat keeps_step.
Qed.

(** X8.  Whatever the frame and the outcome of the call, [publish] logs
    a line exactly when the point cloud channel has a subscriber and
    the point vector is not as long as the intensity map, and the line
    is the mismatch message; no other routine logs anything. *)
Theorem mismatch_logged_iff (be : bool) (hdr : Header.t)
    (f : SafeVisionaryData.t) (w : World) :
  exists out,
    snd (publish be hdr f w) = record out w /\
    ((exists text, In (RosInfo text) out)
     <-> 0 < getNumSubscribers w pointcloud_pub_ /\
         length (SafeVisionaryData.getIntensityMap f)
         <> length (points_of f)) /\
    (forall text, In (RosInfo text) out -> text = mismatch_text).
Proof.
  set (s := getNumSubscribers w).
  set (o1 := served s camera_info_pub_
               (announce camera_info_pub_ (MsgCameraInfo (camera_info hdr f)))).
  assert (H1 : runs (if_subscribed camera_info_pub_ (publishCameraInfo hdr f))
                 w (Ret tt) o1)
    by (apply runs_if_subscribed; [reflexivity|intro; apply runs_announce]).
  assert (U1 : forall t, ~ In (RosInfo t) o1).
  { intros t. unfold o1, served, announce.
    destruct (0 <? s camera_info_pub_); simpl; intuition discriminate. }
  (* the point cloud step *)
  assert (H2 : exists r2 o2,
             runs (if_subscribed pointcloud_pub_ (publishPointCloud be hdr f))
               (record o1 w) r2 o2 /\
             ((exists t, In (RosInfo t) o2)
              <-> 0 < s pointcloud_pub_ /\ lengths_match f = false) /\
             (forall t, In (RosInfo t) o2 -> t = mismatch_text)).
  { unfold if_subscribed, runs, bind, numSubscribers.
    change (getNumSubscribers (record o1 w)) with s.
    destruct (Z.ltb_spec 0 (s pointcloud_pub_)) as [Hs|Hs].
    - destruct (lengths_match f) eqn:Hm.
      + destruct (pack_points be 14 0 12 0 (points_of f)
                    (SafeVisionaryData.getIntensityMap f)
                    (repeat 0 (Z.to_nat (cloud_size f))))
          as [data|why] eqn:Hp.
        * eexists _, _.
          split; [exact (publishPointCloud_packs be hdr f _ data Hm Hp)|].
          split; [split; [intros [t Ht]|intros [_ ?]; discriminate]|intros t Ht];
            simpl in Ht; intuition discriminate.
        * eexists _, _.
          split; [exact (publishPointCloud_aborts be hdr f _ why Hm Hp)|].
          split; [split; [intros [t Ht]|intros [_ ?]; discriminate]|intros t Ht];
            simpl in Ht; intuition discriminate.
      + eexists _, _.
        split; [exact (publishPointCloud_mismatch be hdr f _ Hm)|].
        split; [split; [auto|intros _; exists mismatch_text; simpl; tauto]|].
        intros t Ht. simpl in Ht.
        destruct Ht as [H|[H|[H|[H|[H|[]]]]]]; try discriminate.
        now injection H.
    - exists (Ret tt), []. unfold ret. rewrite record_nil.
      split; [reflexivity|].
      split; [split; [intros [t []]|intros [? _]; lia]|intros t []].
  }
  destruct H2 as (r2 & o2 & H2 & Hiff & Htext).
  assert (Hm : lengths_match f = false
               <-> length (SafeVisionaryData.getIntensityMap f)
                   <> length (points_of f)).
  { rewrite <- lengths_match_true. destruct (lengths_match f); split;
      (congruence || discriminate || auto). }
  rewrite Hm in Hiff.
  unfold publish. unfold runs in H1, H2. unfold bind at 1. rewrite H1.
  unfold bind at 1. rewrite H2.
  destruct r2 as [[]|why].
  - destruct (unlogged_after_the_cloud be hdr f (record o2 (record o1 w)))
      as (o3 & E3 & U3 & _).
    exists (o1 ++ o2 ++ o3).
    assert (U3' : forall t, ~ In (RosInfo t) o3).
    { intros t Ht. rewrite Forall_forall in U3. exact (U3 _ Ht). }
    rewrite E3, !record_record, <- ?app_assoc.
    split; [reflexivity|]. split.
    + rewrite <- Hiff. split; intros [t Ht]; exists t.
      * rewrite !in_app_iff in Ht.
        destruct Ht as [Ht|[Ht|Ht]]; [now apply U1 in Ht|assumption|
                                       now apply U3' in Ht].
      * rewrite !in_app_iff. auto.
    + intros t Ht. rewrite !in_app_iff in Ht.
      destruct Ht as [Ht|[Ht|Ht]]; [now apply U1 in Ht|now apply Htext|
                                     now apply U3' in Ht].
  - exists (o1 ++ o2). cbn [snd]. rewrite record_record.
    split; [reflexivity|]. split.
    + rewrite <- Hiff. split; intros [t Ht]; exists t.
      * rewrite in_app_iff in Ht.
        destruct Ht as [Ht|Ht]; [now apply U1 in Ht|assumption].
      * rewrite in_app_iff. auto.
    + intros t Ht. rewrite in_app_iff in Ht.
      destruct Ht as [Ht|Ht]; [now apply U1 in Ht|now apply Htext].
Qed.

(** ** When the entry point is safe *)

Lemma returns_bind (m1 m2 : M unit) :
  returns m1 -> returns m2 -> returns (bind m1 (fun _ => m2)).
Proof.
  intros H1 H2 w. destruct (H1 w) as [o1 E1].
  destruct (H2 (record o1 w)) as [o2 E2].
  exists (o1 ++ o2). now apply (runs_bind _ _ _ tt).
Qed.

Lemma returns_if_subscribed (c : Channel) (body : M unit) :
  returns body -> returns (if_subscribed c body).
Proof.
  intros Hb w. unfold if_subscribed, runs, bind, numSubscribers.
  destruct (0 <? getNumSubscribers w c); [apply Hb|].
  exists []. unfold ret. now rewrite record_nil.
Qed.

Lemma returns_announce (c : Channel) (m : Message) :
  returns (bind (emit (Entered c)) (fun _ => publish_on c m)).
Proof. intro w. eexists. apply runs_announce. Qed.

Lemma returns_image (c : Channel) (make : M Image.t) :
  (forall w, exists img, make w = (Ret img, w)) ->
  returns (bind (emit (Entered c))
             (fun _ => bind make (fun image => publish_on c (MsgImage image)))).
Proof.
  intros H w. destruct (H (record [Entered c] w)) as [img E].
  exists (announce c (MsgImage img)).
  apply (runs_bind _ _ _ tt _ [Entered c] [Published c (MsgImage img)]);
    [apply runs_emit|].
  apply (runs_bind _ _ _ img _ [] [Published c (MsgImage img)]);
    [|apply runs_emit].
  unfold runs. now rewrite E, record_nil.
Qed.

(** X9.  [publish] runs to its end, whatever the subscribers and
    whatever fresh memory holds, for every frame whose dimensions are in
    range, none of whose maps is longer than the pixel grid, and whose
    point buffer holds fourteen bytes per point whenever the point
    vector is as long as the intensity map; every subscribed channel is
    then entered.  The maps may be shorter than the grid. *)
Theorem publish_returns (be : bool) (hdr : Header.t)
    (f : SafeVisionaryData.t) (w : World) :
  dims_in_range f ->
  buffers_suffice f ->
  exists out,
    publish be hdr f w = (Ret tt, record out w) /\
    entered out = filter (subscribed w) all_channels.
Proof.
  intros Hd (Hdist & Hint & Hst & Hcloud).
  assert (Hret : returns (publish be hdr f)).
  { unfold publish.
    repeat (apply returns_bind; [|]); apply returns_if_subscribed;
      try apply returns_announce.
    - intro w'. destruct (lengths_match f) eqn:Hm.
      + eexists. apply publishPointCloud_packs; [assumption|].
        rewrite pack_into_zeros by now apply lengths_match_true.
        destruct (Nat.leb_spec (14 * length (points_of f))
                    (Z.to_nat (cloud_size f))) as [H|H]; [reflexivity|].
        specialize (Hcloud eq_refl). lia.
      + eexists. now apply publishPointCloud_mismatch.
    - apply returns_image. intro w'. now apply Vec16ToImage_inside.
    - apply returns_image. intro w'. now apply Vec16ToImage_inside.
    - apply returns_image. intro w'. now apply Vec8ToImage_inside. }
  destruct (Hret w) as [out E].
  destruct (publish_visits be hdr f w) as (r & out' & k & E' & _ & Hr & _).
  destruct (runs_unique _ _ _ _ _ _ E E') as [<- <-].
  exists out. split; [exact E|]. now apply Hr.
Qed.

Lemma publish_returns_witness :
  dims_in_range Sample.half_filled /\ buffers_suffice Sample.half_filled /\
  exists out,
    publish false Sample.header Sample.half_filled
      (Sample.world Sample.everybody 170)
    = (Ret tt, record out (Sample.world Sample.everybody 170)) /\
    entered out = all_channels.
Proof.
  assert (Hd : dims_in_range Sample.half_filled)
    by (repeat split; vm_compute; discriminate).
  assert (Hb : buffers_suffice Sample.half_filled)
    by (repeat split; try (vm_compute; discriminate);
        intros _; vm_compute; discriminate).
  split; [exact Hd|]. split; [exact Hb|].
  exact (publish_returns false Sample.header Sample.half_filled
           (Sample.world Sample.everybody 170) Hd Hb).
Defined.

(** ** Copies that lose nothing *)

(** X10.  The inertial, I/O and device status messages keep apart every
    member their routines read: two frames that give the same message
    agree on the whole inertial sample, on the whole local I/O record,
    and on the whole device status record respectively. *)
Theorem status_copies_lose_nothing (hdr : Header.t)
    (f g : SafeVisionaryData.t) :
  (imu_msg hdr f = imu_msg hdr g ->
   SafeVisionaryData.getIMUData f = SafeVisionaryData.getIMUData g) /\
  (camera_io_msg hdr f = camera_io_msg hdr g ->
   SafeVisionaryData.getLocalIOData f = SafeVisionaryData.getLocalIOData g) /\
  (device_status_msg hdr f = device_status_msg hdr g ->
   SafeVisionaryData.getDeviceStatusData f
   = SafeVisionaryData.getDeviceStatusData g).
Proof.
  split; [|split]; intro H.
  - unfold imu_msg in H.
    destruct (SafeVisionaryData.getIMUData f) as [[] [] []].
    destruct (SafeVisionaryData.getIMUData g) as [[] [] []].
    cbn in H. congruence.
  - unfold camera_io_msg in H.
    destruct (SafeVisionaryData.getLocalIOData f) as [[] [] [] [] []].
    destruct (SafeVisionaryData.getLocalIOData g) as [[] [] [] [] []].
    cbn in H. congruence.
  - unfold device_status_msg in H.
    destruct (SafeVisionaryData.getDeviceStatusData f) as [[] ? ? ? [] ?].
    destruct (SafeVisionaryData.getDeviceStatusData g) as [[] ? ? ? [] ?].
    cbn in H. congruence.
Qed.

Lemma map_injective {A B : Type} (g : A -> B) :
  (forall a b, g a = g b -> a = b) ->
  forall l l', map g l = map g l' -> l = l'.
Proof.
  intros Hg l. induction l as [|a l IH]; intros [|b l'] H;
    try discriminate; [reflexivity|].
  injection H as Hab Hl. f_equal; auto.
Qed.

Lemma roi_msg_injective (a b : RoiData.t) : roi_msg a = roi_msg b -> a = b.
Proof.
  destruct a as [? ? [] []], b as [? ? [] []]. unfold roi_msg. cbn.
  congruence.
Qed.

Lemma field_msg_injective (a b : FieldInformationData.t) :
  field_msg a = field_msg b -> a = b.
Proof. destruct a, b. unfold field_msg. cbn. congruence. Qed.

(** X11.  The region and field messages determine the lists they were
    built from: two frames that give the same region message have the
    same regions of interest, entry by entry and member by member, and
    likewise for the field evaluations. *)
Theorem list_copies_lose_nothing (hdr : Header.t)
    (f g : SafeVisionaryData.t) :
  (roi_array_msg hdr f = roi_array_msg hdr g ->
   SafeVisionaryData.getRoiData f = SafeVisionaryData.getRoiData g) /\
  (field_array_msg hdr f = field_array_msg hdr g ->
   SafeVisionaryData.getFieldInformationData f
   = SafeVisionaryData.getFieldInformationData g).
Proof.
  unfold roi_array_msg, field_array_msg. rewrite !push_back_loop.
  cbn [app]. split; intro H; injection H as H.
  - exact (map_injective _ roi_msg_injective _ _ H).
  - exact (map_injective _ field_msg_injective _ _ H).
Qed.

(** ** Delivery when no copy leaves its buffer *)

Lemma serves_routine (f : SafeVisionaryData.t) (c : Channel) (body : M unit) :
  (forall w, exists evs,
      runs body w (Ret tt) evs /\
      map fst (published evs) = if delivers f c then [c] else []) ->
  serves f [c] (if_subscribed c body).
Proof.
  intros H w. unfold if_subscribed, runs, bind, numSubscribers.
  cbn [filter]. unfold subscribed.
  destruct (0 <? getNumSubscribers w c).
  - destruct (H w) as (evs & Hr & Hp). exists evs.
    split; [exact Hr|]. rewrite Hp. cbn [andb].
    now destruct (delivers f c).
  - exists []. unfold ret. now rewrite record_nil.
Qed.

Lemma serves_cons (f : SafeVisionaryData.t) (c : Channel) (l : list Channel)
    (m1 m2 : M unit) :
  serves f [c] m1 -> serves f l m2 ->
  serves f (c :: l) (bind m1 (fun _ => m2)).
Proof.
  intros H1 H2 w.
  destruct (H1 w) as (o1 & R1 & P1).
  destruct (H2 (record o1 w)) as (o2 & R2 & P2).
  exists (o1 ++ o2). split; [now apply (runs_bind _ _ _ tt)|].
  rewrite published_app, map_app, P1, P2. cbn [filter].
  change (subscribed (record o1 w)) with (subscribed w).
  now destruct (subscribed w c && delivers f c).
Qed.

Lemma delivers_announce (f : SafeVisionaryData.t) (c : Channel) (m : Message) :
  delivers f c = true ->
  forall w, exists evs,
    runs (bind (emit (Entered c)) (fun _ => publish_on c m)) w (Ret tt) evs /\
    map fst (published evs) = if delivers f c then [c] else [].
Proof.
  intros Hd w. exists (announce c m). split; [apply runs_announce|].
  now rewrite Hd.
Qed.

Lemma delivers_image (f : SafeVisionaryData.t) (c : Channel)
    (make : M Image.t) :
  delivers f c = true ->
  (forall w, exists img, make w = (Ret img, w)) ->
  forall w, exists evs,
    runs (bind (emit (Entered c))
            (fun _ => bind make (fun image => publish_on c (MsgImage image))))
      w (Ret tt) evs /\
    map fst (published evs) = if delivers f c then [c] else [].
Proof.
  intros Hd H w. destruct (H (record [Entered c] w)) as [img E].
  exists (announce c (MsgImage img)). split.
  - apply (runs_bind _ _ _ tt _ [Entered c] [Published c (MsgImage img)]);
      [apply runs_emit|].
    apply (runs_bind _ _ _ img _ [] [Published c (MsgImage img)]);
      [|apply runs_emit].
    unfold runs. now rewrite E, record_nil.
  - now rewrite Hd.
Qed.

Lemma delivers_cloud (be : bool) (hdr : Header.t) (f : SafeVisionaryData.t) :
  (lengths_match f = true ->
   14 * Z.of_nat (length (points_of f)) <= cloud_size f) ->
  forall w, exists evs,
    runs (publishPointCloud be hdr f) w (Ret tt) evs /\
    map fst (published evs)
    = if delivers f pointcloud_pub_ then [pointcloud_pub_] else [].
Proof.
  intros Hcloud w. cbn [delivers].
  destruct (lengths_match f) eqn:Hm.
  - eexists. split.
    + apply publishPointCloud_packs; [assumption|].
      rewrite pack_into_zeros by now apply lengths_match_true.
      destruct (Nat.leb_spec (14 * length (points_of f))
                  (Z.to_nat (cloud_size f))) as [H|H]; [reflexivity|].
      specialize (Hcloud eq_refl). lia.
    + reflexivity.
  - eexists. split; [now apply publishPointCloud_mismatch|reflexivity].
Qed.

(** X14.  For every frame whose dimensions are in range, none of whose
    maps is longer than the pixel grid, and whose point buffer holds
    fourteen bytes per point whenever the point vector is as long as
    the intensity map, [publish] runs to its end and publishes, in the
    order of the channels, on exactly the subscribed channels other
    than a point cloud channel whose lengths differ.  So when the
    point vector and the intensity map differ in length, nothing is
    published on the point cloud channel and every other subscribed
    channel still gets its message.  The maps may be shorter than the
    grid. *)
Theorem delivery_despite_mismatch (be : bool) (hdr : Header.t)
    (f : SafeVisionaryData.t) (w : World) :
  dims_in_range f ->
  buffers_suffice f ->
  exists out,
    publish be hdr f w = (Ret tt, record out w) /\
    map fst (published out)
    = filter (fun c => subscribed w c && delivers f c) all_channels /\
    (length (SafeVisionaryData.getIntensityMap f) <> length (points_of f) ->
     ~ In pointcloud_pub_ (map fst (published out)) /\
     forall c, c <> pointcloud_pub_ -> subscribed w c = true ->
               In c (map fst (published out))).
Proof.
  intros Hd (Hdist & Hint & Hst & Hcloud).
  assert (Hs : serves f all_channels (publish be hdr f)).
  { unfold publish, all_channels.
    repeat (apply serves_cons; [|]); apply serves_routine;
      try (apply delivers_announce; reflexivity).
    - now apply delivers_cloud.
    - apply delivers_image; [reflexivity|].
      intro w'. now apply Vec16ToImage_inside.
    - apply delivers_image; [reflexivity|].
      intro w'. now apply Vec16ToImage_inside.
    - apply delivers_image; [reflexivity|].
      intro w'. now apply Vec8ToImage_inside. }
  destruct (Hs w) as (out & Hrun & Hpub).
  exists out. split; [exact Hrun|]. split; [exact Hpub|].
  intro Hne.
  assert (Hm : lengths_match f = false).
  { destruct (lengths_match f) eqn:E; [|reflexivity].
    now apply lengths_match_true in E. }
  rewrite Hpub. split.
  - rewrite filter_In. intros [_ H]. cbn [delivers] in H.
    rewrite Hm, andb_false_r in H. discriminate.
  - intros c Hc Hsub. apply filter_In. split; [apply all_channels_complete|].
    rewrite Hsub. now destruct c.
Qed.

Lemma delivery_despite_mismatch_witness :
  dims_in_range Sample.short_intensity /\
  buffers_suffice Sample.short_intensity /\
  length (SafeVisionaryData.getIntensityMap Sample.short_intensity)
  <> length (points_of Sample.short_intensity) /\
  exists out,
    publish false Sample.header Sample.short_intensity
      (Sample.world Sample.everybody 170)
    = (Ret tt, record out (Sample.world Sample.everybody 170)) /\
    map fst (published out)
    = [camera_info_pub_; depth_pub_; intensity_pub_; state_pub_; imu_pub_;
       device_status_pub_; io_pub_; roi_pub_; field_pub_].
Proof.
  assert (Hd : dims_in_range Sample.short_intensity)
    by (repeat split; vm_compute; discriminate).
  assert (Hb : buffers_suffice Sample.short_intensity)
    by (repeat split; try (vm_compute; discriminate);
        intro H; vm_compute in H; discriminate H).
  split; [exact Hd|]. split; [exact Hb|].
  split; [vm_compute; discriminate|].
  destruct (delivery_despite_mismatch false Sample.header
              Sample.short_intensity (Sample.world Sample.everybody 170)
              Hd Hb) as (out & Hrun & Hpub & _).
  exists out. split; [exact Hrun|exact Hpub].
Defined.
